(** * just-prompt: the context builder ([molecules/build_context.py])

    A shallow embedding of the file-collection and document-assembly
    pipeline, followed by the properties of the natural-language
    specification that were checked against it.

    Conventions of the embedding.
    - A Python [str] is a list of Unicode code points ([list N]); a
      [bytes] value is a [list byte].
    - [pathlib.Path] is modelled after CPython's [PurePosixPath]: a root
      (empty, [/] or [//]) and the list of remaining components. Equality
      and order of paths follow the [pathlib] in use: up to CPython 3.11
      the parts are compared, from 3.12 on the string split at the separator.
    - [str.lower()] is the interpreter's: a parameter, of which the
      properties assume what they say and nothing else.
    - The file system, the process working directory and the language
      model are an environment: a record of oracles, read through a small
      state-and-exception monad that records every interaction. Every call
      that can raise [OSError] in CPython can raise it here. *)

From Stdlib Require Import NArith ZArith Lia.
From Stdlib.Strings Require Import Ascii String Byte.
From Stdlib Require Import DecimalString.
From stdpp Require Import base tactics option list gmap sorting.

#[local] Open Scope N_scope.
#[local] Open Scope nat_scope.

(** ** Python strings *)

Abbreviation char := N (only parsing).
Abbreviation str := (list N) (only parsing).

(** An ASCII literal of the source, as a list of code points. *)
Definition lit (s : string) : str := N_of_ascii <$> list_ascii_of_string s.
Arguments lit s%_string : simpl never.

Definition ch (a : ascii) : char := N_of_ascii a.
Arguments ch a%_char : simpl never.

(** [s.startswith(p)], [s.endswith(p)] and [c in s] for a one-character [c]. *)
Definition startswith (s p : str) : bool := bool_decide (p `prefix_of` s).
Definition endswith (s p : str) : bool := bool_decide (p `suffix_of` s).
Definition contains_char (c : char) (s : str) : bool := bool_decide (c ∈ s).

(** [all(ord(c) < 128 for c in s)] *)
Definition is_ascii (s : str) : bool := forallb (fun c => c <? 128)%N s.

(** [s.split(sep)] for a one-character separator. *)
Fixpoint split (sep : char) (s : str) : list str :=
  match s with
  | [] => [[]]
  | c :: s' =>
      if decide (c = sep) then [] :: split sep s'
      else match split sep s' with
           | [] => [[c]]
           | w :: ws => (c :: w) :: ws
           end
  end.

(** [sep.join(l)]. *)
Fixpoint join (sep : str) (l : list str) : str :=
  match l with
  | [] => []
  | [x] => x
  | x :: l' => x ++ sep ++ join sep l'
  end.

(** [s.rfind(c)] for a one-character [c]: the last index, or [-1]. *)
Fixpoint rfind_from (c : char) (s : str) (i : Z) (best : Z) : Z :=
  match s with
  | [] => best
  | d :: s' => rfind_from c s' (i + 1)%Z (if decide (d = c) then i else best)
  end.
Definition rfind (c : char) (s : str) : Z := rfind_from c s 0%Z (-1)%Z.

(** ** pathlib paths *)

Record Path := mkPath { p_root : str; p_tail : list str }.

#[global] Instance Path_eq_dec : EqDecision Path.
Proof. solve_decision. Defined.

#[global] Instance Path_countable : Countable Path.
Proof.
  refine (inj_countable' (fun p => (p_root p, p_tail p))
            (fun rt => mkPath rt.1 rt.2) _).
  by intros [].
Defined.

Definition slash : char := ch "/".
Definition dot : char := ch ".".

(** [posixpath.splitroot]: no leading slash, exactly two leading slashes,
    or one (three or more count as one). *)
Definition splitroot (s : str) : str * str :=
  match s with
  | a :: rest =>
      if decide (a = slash) then
        match rest with
        | b :: rest' =>
            if decide (b = slash) then
              match rest' with
              | c :: _ => if decide (c = slash) then ([slash], rest)
                          else ([slash; slash], rest')
              | [] => ([slash; slash], rest')
              end
            else ([slash], rest)
        | [] => ([slash], rest)
        end
      else ([], s)
  | [] => ([], s)
  end.

(** [Path(s)]: empty components and [.] components are dropped. *)
Definition Path_of (s : str) : Path :=
  let '(r, rel) := splitroot s in
  mkPath r (filter (fun x => x ≠ [] ∧ x ≠ [dot]) (split slash rel)).

(** [path.name], [path.parts], [str(path)], [path.parent]. *)
Definition name (p : Path) : str := List.last (p_tail p) [].
Definition parts (p : Path) : list str :=
  match p_root p with [] => p_tail p | r => r :: p_tail p end.
Definition path_str (p : Path) : str :=
  match p_root p ++ join [slash] (p_tail p) with [] => [dot] | s => s end.
Definition parent (p : Path) : Path :=
  match p_tail p with
  | [] => p
  | _ => mkPath (p_root p) (removelast (p_tail p))
  end.

(** [path.suffix]: [name[i:]] for [i = name.rfind('.')] when
    [0 < i < len(name) - 1], else the empty string. *)
Definition suffix (p : Path) : str :=
  let n := name p in
  let i := rfind dot n in
  if decide (0 < i ∧ i < Z.of_nat (length n) - 1)%Z then drop (Z.to_nat i) n
  else [].

(** [path.relative_to(other)]: [None] stands for the [ValueError] raised when
    [other] is neither [path] nor one of its parents. *)
Definition relative_to (p other : Path) : option Path :=
  if decide (p_root p = p_root other ∧ p_tail other `prefix_of` p_tail p)
  then Some (mkPath [] (drop (length (p_tail other)) (p_tail p)))
  else None.

(** ** The static tables *)

Definition LANGUAGE_MAP : gmap (list N) (list N) :=
  list_to_map (prod_map lit lit <$> [
    (".py", "python"); (".js", "javascript"); (".ts", "typescript");
    (".tsx", "typescript"); (".jsx", "javascript"); (".java", "java");
    (".c", "c"); (".cpp", "cpp"); (".cc", "cpp"); (".cxx", "cpp");
    (".h", "c"); (".hpp", "cpp"); (".cs", "csharp"); (".go", "go");
    (".rs", "rust"); (".php", "php"); (".rb", "ruby"); (".swift", "swift");
    (".kt", "kotlin"); (".scala", "scala"); (".sh", "bash");
    (".bash", "bash"); (".zsh", "zsh"); (".fish", "fish");
    (".ps1", "powershell"); (".sql", "sql"); (".html", "html");
    (".css", "css"); (".scss", "scss"); (".sass", "sass");
    (".less", "less"); (".xml", "xml"); (".json", "json");
    (".yaml", "yaml"); (".yml", "yaml"); (".toml", "toml");
    (".ini", "ini"); (".cfg", "ini"); (".conf", "ini");
    (".md", "markdown"); (".txt", "text"); (".log", "text");
    (".env", "bash"); (".dockerfile", "dockerfile");
    (".makefile", "makefile"); (".gradle", "gradle"); (".r", "r");
    (".R", "r"); (".m", "matlab"); (".pl", "perl"); (".lua", "lua");
    (".vim", "vim"); (".dart", "dart"); (".elm", "elm"); (".ex", "elixir");
    (".exs", "elixir"); (".clj", "clojure"); (".cljs", "clojure");
    (".hs", "haskell"); (".ml", "ocaml"); (".fs", "fsharp");
    (".jl", "julia"); (".nim", "nim"); (".zig", "zig")
  ]%string).

Definition DEFAULT_IGNORE_PATTERNS : list str :=
  lit <$> [
    ".git"; ".gitignore"; ".gitmodules"; "__pycache__"; ".pytest_cache";
    "node_modules"; ".npm"; ".yarn"; "package-lock.json"; "yarn.lock";
    ".env"; ".venv"; "env"; "venv"; ".DS_Store"; "Thumbs.db";
    "*.pyc"; "*.pyo"; "*.pyd"; "*.so"; "*.dylib"; "*.dll"; "*.exe";
    "*.o"; "*.obj"; "*.a"; "*.lib"; "*.log"; ".idea"; ".vscode"; ".vs";
    "*.swp"; "*.swo"; "*~"; ".coverage"; ".nyc_output"; "coverage";
    "dist"; "build"; "target"; "bin"; "obj"; ".next"; ".nuxt";
    ".svelte-kit"; "node_modules.nosync"; ".tmp"; ".temp"
  ]%string.

(** ** get_file_language *)

(** [range(hi, 0, -1)]: [hi, hi-1, ..., 1]. *)
Fixpoint range_down (hi : nat) : list nat :=
  match hi with
  | O => []
  | S k => hi :: range_down k
  end.

(** The loop over the extensions, rightmost first; [None] when it runs to
    its end without returning. *)
Fixpoint scan_extensions (parts : list str) (idx : list nat) : option str :=
  match idx with
  | [] => None
  | i :: idx' =>
      let extension := dot :: nth i parts [] in
      match LANGUAGE_MAP !! extension with
      | Some language => Some language
      | None => scan_extensions parts idx'
      end
  end.

Section Language.

(** [str.lower()] is taken as it comes with the interpreter: it folds all
    of Unicode, one character may become two, and the capital sigma is
    folded by its context. *)
Context (lower : str → str).

Definition get_file_language (file_path : Path) : str :=
  let filename := lower (name file_path) in
  if negb (contains_char dot filename) then
    if bool_decide (filename ∈ lit <$> ["dockerfile"; "makefile"; "rakefile"; "gemfile"]%string)
    then filename
    else if startswith filename (lit "makefile") then lit "makefile"
    else lit "text"
  else
    let parts := split dot filename in
    match scan_extensions parts (range_down (length parts - 1)) with
    | Some language => language
    | None =>
        let extension := lower (suffix file_path) in
        default (lit "text") (LANGUAGE_MAP !! extension)
    end.

End Language.

(** ** should_ignore_file *)

Fixpoint should_ignore_file (file_path : Path) (ignore_patterns : list str) : bool :=
  let filename := name file_path in
  let path_parts := parts file_path in
  match ignore_patterns with
  | [] => false
  | pattern :: rest =>
      if bool_decide (pattern = filename) then true
      else if startswith pattern [ch "*"] && endswith filename (drop 1 pattern) then true
      else if bool_decide (pattern ∈ path_parts) then true
      else should_ignore_file file_path rest
  end.

(** ** More string operations *)

(** The line boundaries of [str.splitlines()]. *)
Definition is_linebreak (c : char) : bool :=
  bool_decide (c ∈ [10; 11; 12; 13; 28; 29; 30; 133; 8232; 8233]%N).

(** [s.splitlines()]: [cur] is the line being read, [after_cr] tells that
    the previous character was a carriage return (a following line feed
    belongs to the same boundary). *)
Fixpoint splitlines_go (s : str) (cur : str) (after_cr : bool) : list str :=
  match s with
  | [] => match cur with [] => [] | _ => [cur] end
  | c :: s' =>
      if after_cr && (c =? 10)%N then splitlines_go s' cur false
      else if is_linebreak c then cur :: splitlines_go s' [] (c =? 13)%N
      else splitlines_go s' (cur ++ [c]) false
  end.
Definition splitlines (s : str) : list str := splitlines_go s [] false.

(** The whitespace removed by [str.strip()]. *)
Definition is_space (c : char) : bool :=
  ((9 <=? c) && (c <=? 13) || (28 <=? c) && (c <=? 32) ||
   (c =? 133) || (c =? 160) || (c =? 5760) ||
   (8192 <=? c) && (c <=? 8202) || (c =? 8232) || (c =? 8233) ||
   (c =? 8239) || (c =? 8287) || (c =? 12288))%N.

Fixpoint lstrip (s : str) : str :=
  match s with
  | c :: s' => if is_space c then lstrip s' else s
  | [] => []
  end.
Definition strip (s : str) : str := reverse (lstrip (reverse (lstrip s))).

(** [str(i)] for a non-negative integer, and the format [{i:>4}]. *)
Definition str_of_nat (i : nat) : str := lit (NilZero.string_of_uint (Nat.to_uint i)).
Definition rjust (width : nat) (s : str) : str :=
  replicate (width - length s) (ch " ") ++ s.

(** The separator glyph of the numbered lines, U+2192. *)
Definition arrow : char := 8594%N.

(** ** Decoding bytes *)

Abbreviation bytes := (list byte) (only parsing).

Definition is_cont (n : N) : bool := ((128 <=? n) && (n <=? 191))%N.

(** The strict UTF-8 decoder: [None] stands for [UnicodeDecodeError]. *)
Fixpoint utf8_decode (bs : bytes) : option str :=
  match bs with
  | [] => Some []
  | b0 :: bs1 =>
      let n0 := Byte.to_N b0 in
      if (n0 <? 128)%N then cons n0 <$> utf8_decode bs1
      else if ((194 <=? n0) && (n0 <=? 223))%N then
        match bs1 with
        | b1 :: bs2 =>
            let n1 := Byte.to_N b1 in
            if is_cont n1
            then cons ((n0 - 192) * 64 + (n1 - 128))%N <$> utf8_decode bs2
            else None
        | _ => None
        end
      else if ((224 <=? n0) && (n0 <=? 239))%N then
        match bs1 with
        | b1 :: b2 :: bs3 =>
            let n1 := Byte.to_N b1 in
            let n2 := Byte.to_N b2 in
            let lo := if (n0 =? 224)%N then 160%N else 128%N in
            let hi := if (n0 =? 237)%N then 159%N else 191%N in
            if ((lo <=? n1) && (n1 <=? hi))%N && is_cont n2
            then cons ((n0 - 224) * 4096 + (n1 - 128) * 64 + (n2 - 128))%N
                   <$> utf8_decode bs3
            else None
        | _ => None
        end
      else if ((240 <=? n0) && (n0 <=? 244))%N then
        match bs1 with
        | b1 :: b2 :: b3 :: bs4 =>
            let n1 := Byte.to_N b1 in
            let n2 := Byte.to_N b2 in
            let n3 := Byte.to_N b3 in
            let lo := if (n0 =? 240)%N then 144%N else 128%N in
            let hi := if (n0 =? 244)%N then 143%N else 191%N in
            if ((lo <=? n1) && (n1 <=? hi))%N && is_cont n2 && is_cont n3
            then cons ((n0 - 240) * 262144 + (n1 - 128) * 4096
                       + (n2 - 128) * 64 + (n3 - 128))%N <$> utf8_decode bs4
            else None
        | _ => None
        end
      else None
  end.

(** The single-byte decoder (latin-1): every byte is its own code point. *)
Definition latin1_decode (bs : bytes) : str := Byte.to_N <$> bs.

(** Text mode with the default [newline=None]: [\r\n] and a lone [\r] are
    read as [\n]. *)
Fixpoint universal_newlines_go (s : str) (after_cr : bool) : str :=
  match s with
  | [] => []
  | c :: s' =>
      if after_cr && (c =? 10)%N then universal_newlines_go s' false
      else if (c =? 13)%N then 10%N :: universal_newlines_go s' true
      else c :: universal_newlines_go s' false
  end.
Definition universal_newlines (s : str) : str := universal_newlines_go s false.

(** ** Comparing paths *)

(** Python's sequence comparison: the first position where the two differ
    decides; a proper prefix is smaller. *)
Fixpoint lex_ltb {A} `{EqDecision A} (ltb : A → A → bool) (l1 l2 : list A) : bool :=
  match l1, l2 with
  | [], [] => false
  | [], _ :: _ => true
  | _ :: _, [] => false
  | x :: l1', y :: l2' =>
      if decide (x = y) then lex_ltb ltb l1' l2' else ltb x y
  end.

Definition str_ltb : str → str → bool := lex_ltb N.ltb.

(** The [pathlib] that runs the program. Up to CPython 3.11 a path is
    compared and hashed by [_cparts], its parts with the root as the first
    of them; from 3.12 on two paths are equal when their strings are, and
    they are ordered by [_parts_normcase], the string split at the
    separator. *)
Inductive pathlib_version := Pathlib311 | Pathlib312.

(** What [__eq__], [__hash__] and [__lt__] look at. *)
Definition path_key (v : pathlib_version) (p : Path) : list str :=
  match v with
  | Pathlib311 => parts p
  | Pathlib312 => split slash (path_str p)
  end.

Definition path_eq (v : pathlib_version) (p q : Path) : Prop :=
  path_key v p = path_key v q.
Definition path_lt (v : pathlib_version) (p q : Path) : Prop :=
  lex_ltb str_ltb (path_key v p) (path_key v q) = true.
(** The order a sort sees: [q] is not smaller than [p]. *)
Definition path_le (v : pathlib_version) (p q : Path) : Prop := ¬ path_lt v q p.

#[global] Instance path_eq_dec v : RelDecision (path_eq v).
Proof. unfold path_eq. solve_decision. Defined.
#[global] Instance path_lt_dec v : RelDecision (path_lt v).
Proof. unfold path_lt. solve_decision. Defined.
#[global] Instance path_le_dec v : RelDecision (path_le v).
Proof. unfold path_le. solve_decision. Defined.

(** [set(l)]: one element for each class of equal paths, the first one met;
    keyed, as the hash table is, by what [__eq__] compares. *)
Definition path_set (v : pathlib_version) (l : list Path) : gmap (list (list N)) Path :=
  list_to_map ((fun p => (path_key v p, p)) <$> l).

(** [sorted(list(s))]. *)
Definition sorted_paths (v : pathlib_version) (s : gmap (list (list N)) Path) : list Path :=
  merge_sort (path_le v) (map_to_list s).*2.

(** ** Truth values *)

(** What [if x:] tests: a list or a string is true when it is not empty,
    an optional value when it is present and true. *)
Class Truthy (A : Type) := truthy : A → bool.
#[global] Instance list_truthy {A} : Truthy (list A) :=
  fun l => match l with [] => false | _ => true end.
#[global] Instance option_truthy {A} `{Truthy A} : Truthy (option A) :=
  fun o => match o with None => false | Some a => truthy a end.

(** ** Exceptions, events and the world *)

Inductive exn_class :=
  | ValueError | UnicodeDecodeError | TypeError | OSError | OtherException.

Record exn := mkExn { exn_kind : exn_class; exn_msg : str }.

(** The [except] clauses of the source. *)
Definition is_Exception (e : exn) : bool := true.
Definition is_UnicodeDecodeError (e : exn) : bool :=
  match exn_kind e with UnicodeDecodeError => true | _ => false end.
Definition is_OSError (e : exn) : bool :=
  match exn_kind e with OSError => true | _ => false end.

Inductive log_level := INFO | WARNING | ERROR.

(** One constructor for each logging call of the module, with the values
    its message is formatted from. *)
Inductive log_record :=
  | LogDirectoryMissing (directory : str)
  | LogNotADirectory (directory : str)
  | LogSkippingLarge (file_path : Path)
  | LogCannotAccess (file_path : Path) (e : exn)
  | LogFileMissing (file_str : str)
  | LogNotAFile (file_str : str)
  | LogFileIgnored (file_str : str)
  | LogSummaryFailed (file_path : Path) (e : exn)
  | LogBuilding (directories files : option (list str))
  | LogChangedCwd (directory : str)
  | LogCollected (n : nat)
  | LogErrorProcessing (file_path : Path) (e : exn)
  | LogGenerated (output_path : Path)
  | LogErrorWriting (output_file : option str) (e : exn)
  | LogRestoredCwd (directory : str).

Definition level_of (r : log_record) : log_level :=
  match r with
  | LogDirectoryMissing _ | LogNotADirectory _ | LogSkippingLarge _
  | LogCannotAccess _ _ | LogFileMissing _ | LogNotAFile _
  | LogSummaryFailed _ _ => WARNING
  | LogErrorProcessing _ _ | LogErrorWriting _ _ => ERROR
  | _ => INFO
  end.

Inductive fs_op := OpExists | OpIsDir | OpIsFile | OpRglob | OpStat | OpRead | OpMkdir.

(** Everything the program does to its surroundings, in order. *)
Inductive event :=
  | EvFs (op : fs_op) (p : Path)
  | EvWrite (p : Path) (text : str)
  | EvGetcwd
  | EvChdir (directory : str)
  | EvPrompt (text : str) (models : list str)
  | EvLog (r : log_record).

Record world := mkWorld { cwd : str; trace : list event }.

Definition record_event (e : event) (w : world) : world :=
  mkWorld (cwd w) (trace w ++ [e]).

(** The surroundings: the interpreter ([str.lower()] and the version of
    [pathlib]) and what the file system, the kernel and the language model
    answer. A path is resolved against the working directory, so every
    file-system oracle takes it first. A left value is the message of the
    [OSError] raised: [exists()], [is_dir()] and [is_file()] answer [False]
    for a missing path and raise for any other failure (a name that is too
    long, a directory that may not be searched). [rglob] is a generator: it
    yields some paths and may then end with an [OSError]. [os.getcwd()]
    raises when the working directory is gone. *)
Record Env := mkEnv {
  str_lower : str → str;
  pathlib : pathlib_version;
  fs_exists : str → Path → str + bool;
  fs_is_dir : str → Path → str + bool;
  fs_is_file : str → Path → str + bool;
  fs_rglob : str → Path → list Path * option str;
  fs_stat_size : str → Path → str + Z;
  fs_read_bytes : str → Path → str + list byte;
  fs_mkdir : str → Path → option exn;
  fs_write : str → Path → str → option exn;
  os_getcwd_error : str → option str;
  os_chdir_to : str → str → str + str;
  llm_prompt : str → list str → exn + list str
}.

(** ** The monad: state and exceptions *)

Inductive result (A : Type) := Ok (a : A) | Raise (e : exn).
Arguments Ok {A} a.
Arguments Raise {A} e.

Definition M (A : Type) : Type := world → result A * world.

Definition ret {A} (a : A) : M A := fun w => (Ok a, w).
Definition bind {A B} (c : M A) (k : A → M B) : M B :=
  fun w => match c w with
           | (Ok a, w') => k a w'
           | (Raise e, w') => (Raise e, w')
           end.
Definition raise {A} (e : exn) : M A := fun w => (Raise e, w).

Declare Scope py_scope.
Delimit Scope py_scope with py.
Notation "x <- c ;; k" := (bind c (fun x => k))
  (at level 100, c at next level, right associativity) : py_scope.
Notation "c ;; k" := (bind c (fun _ => k))
  (at level 100, right associativity) : py_scope.
#[local] Open Scope py_scope.

(** [try: c except ...:] with the clauses in order: the first one whose
    class test accepts the exception handles it; an exception of a handler
    is not caught by the clauses of the same statement. *)
Fixpoint dispatch {A} (handlers : list ((exn → bool) * (exn → M A))) (e : exn) : M A :=
  match handlers with
  | [] => raise e
  | (accepts, handler) :: rest =>
      if accepts e then handler e else dispatch rest e
  end.
Definition try_except {A} (c : M A) (handlers : list ((exn → bool) * (exn → M A))) : M A :=
  fun w => match c w with
           | (Ok a, w') => (Ok a, w')
           | (Raise e, w') => dispatch handlers e w'
           end.

(** [try: c finally: fin]: [fin] runs on every exit of [c]; an exception
    of [fin] replaces the outcome of [c]. *)
Definition try_finally {A} (c : M A) (fin : M unit) : M A :=
  fun w => let '(r, w') := c w in
           match fin w' with
           | (Ok _, w'') => (r, w'')
           | (Raise e, w'') => (Raise e, w'')
           end.

(** A [for] loop that updates the value [s]. *)
Fixpoint for_each {A S} (l : list A) (body : S → A → M S) (s : S) : M S :=
  match l with
  | [] => ret s
  | x :: l' => s' <- body s x ;; for_each l' body s'
  end.

Definition emit (e : event) : M unit := fun w => (Ok tt, record_event e w).
Definition log (r : log_record) : M unit := emit (EvLog r).

(** The outcome of a call answered by the surroundings. *)
Definition answered {A} (a : str + A) : result A :=
  match a with
  | inr x => Ok x
  | inl msg => Raise (mkExn OSError msg)
  end.

Section Program.

Context (env : Env).

(** ** The primitives of the standard library *)

Definition path_exists (p : Path) : M bool :=
  fun w => (answered (fs_exists env (cwd w) p), record_event (EvFs OpExists p) w).
Definition path_is_dir (p : Path) : M bool :=
  fun w => (answered (fs_is_dir env (cwd w) p), record_event (EvFs OpIsDir p) w).
Definition path_is_file (p : Path) : M bool :=
  fun w => (answered (fs_is_file env (cwd w) p), record_event (EvFs OpIsFile p) w).

(** [path.rglob('*')]: the paths the generator yields and, when it ends
    with an [OSError], the message of that error. *)
Definition path_rglob (p : Path) : M (list Path * option str) :=
  fun w => (Ok (fs_rglob env (cwd w) p), record_event (EvFs OpRglob p) w).

(** [path.stat().st_size] *)
Definition path_stat_size (p : Path) : M Z :=
  fun w => (match fs_stat_size env (cwd w) p with
            | inr size => Ok size
            | inl msg => Raise (mkExn OSError msg)
            end, record_event (EvFs OpStat p) w).

Inductive encoding := UTF8 | Latin1.

(** [with open(p, 'r', encoding=...) as f: f.read()] *)
Definition read_text (p : Path) (enc : encoding) : M str :=
  fun w => (match fs_read_bytes env (cwd w) p with
            | inl msg => Raise (mkExn OSError msg)
            | inr bs =>
                match enc with
                | UTF8 =>
                    match utf8_decode bs with
                    | Some s => Ok (universal_newlines s)
                    | None => Raise (mkExn UnicodeDecodeError
                                       (lit "'utf-8' codec can't decode bytes"))
                    end
                | Latin1 => Ok (universal_newlines (latin1_decode bs))
                end
            end, record_event (EvFs OpRead p) w).

(** [path.mkdir(parents=True, exist_ok=True)] *)
Definition path_mkdir (p : Path) : M unit :=
  fun w => (match fs_mkdir env (cwd w) p with
            | None => Ok tt
            | Some e => Raise e
            end, record_event (EvFs OpMkdir p) w).

(** [with open(p, 'w', encoding='utf-8') as f: f.write(text)] *)
Definition write_text (p : Path) (text : str) : M unit :=
  fun w => (match fs_write env (cwd w) p text with
            | None => Ok tt
            | Some e => Raise e
            end, record_event (EvWrite p text) w).

Definition os_getcwd : M str :=
  fun w => (match os_getcwd_error env (cwd w) with
            | None => Ok (cwd w)
            | Some msg => Raise (mkExn OSError msg)
            end, record_event EvGetcwd w).

Definition os_chdir (directory : str) : M unit :=
  fun w => match os_chdir_to env (cwd w) directory with
           | inr new_cwd => (Ok tt, mkWorld new_cwd (trace w ++ [EvChdir directory]))
           | inl msg => (Raise (mkExn OSError msg), record_event (EvChdir directory) w)
           end.

(** [Path.cwd()] *)
Definition Path_cwd : M Path := d <- os_getcwd ;; ret (Path_of d).

(** [Path(x)] for an optional string: [Path(None)] raises [TypeError]. *)
Definition Path_new (x : option str) : M Path :=
  match x with
  | Some s => ret (Path_of s)
  | None => raise (mkExn TypeError
                     (lit "argument should be a str or an os.PathLike object where __fspath__ returns a str, not 'NoneType'"))
  end.

(** [prompt(text, models)] of [molecules/prompt.py], the external summarizer. *)
Definition prompt (text : str) (models : list str) : M (list str) :=
  fun w => (match llm_prompt env text models with
            | inr responses => Ok responses
            | inl e => Raise e
            end, record_event (EvPrompt text models) w).

(** ** collect_files *)

(** The size test and the append, shared by both loops. *)
Definition collect_if_small (collected_files : list Path) (file_path : Path) : M (list Path) :=
  try_except
    (size <- path_stat_size file_path ;;
     if (1024 * 1024 <? size)%Z then
       log (LogSkippingLarge file_path) ;; ret collected_files
     else ret (collected_files ++ [file_path]))
    [(is_OSError, fun e => log (LogCannotAccess file_path e) ;; ret collected_files)].

(** The body of [for file_path in dir_path.rglob('*')]. *)
Definition collect_walked (ignore_patterns : list str)
    (collected_files : list Path) (file_path : Path) : M (list Path) :=
  is_file <- path_is_file file_path ;;
  if is_file && negb (should_ignore_file file_path ignore_patterns) then
    collect_if_small collected_files file_path
  else ret collected_files.

(** The body of [for directory in directories]. The inner loop runs its body
    for every path the walk yields; an error that ends the walk is raised
    after them. *)
Definition collect_directory (ignore_patterns : list str)
    (collected_files : list Path) (directory : str) : M (list Path) :=
  let dir_path := Path_of directory in
  exists_ <- path_exists dir_path ;;
  if negb exists_ then
    log (LogDirectoryMissing directory) ;; ret collected_files
  else
    is_dir <- path_is_dir dir_path ;;
    if negb is_dir then
      log (LogNotADirectory directory) ;; ret collected_files
    else
      walk <- path_rglob dir_path ;;
      collected_files <- for_each walk.1 (collect_walked ignore_patterns) collected_files ;;
      match walk.2 with
      | Some msg => raise (mkExn OSError msg)
      | None => ret collected_files
      end.

(** The body of [for file_str in files]. *)
Definition collect_file (ignore_patterns : list str)
    (collected_files : list Path) (file_str : str) : M (list Path) :=
  let file_path := Path_of file_str in
  exists_ <- path_exists file_path ;;
  if negb exists_ then
    log (LogFileMissing file_str) ;; ret collected_files
  else
    is_file <- path_is_file file_path ;;
    if negb is_file then
      log (LogNotAFile file_str) ;; ret collected_files
    else if should_ignore_file file_path ignore_patterns then
      log (LogFileIgnored file_str) ;; ret collected_files
    else collect_if_small collected_files file_path.

Definition collect_files (directories files ignore_patterns : option (list str))
    : M (list Path) :=
  let ignore_patterns := default DEFAULT_IGNORE_PATTERNS ignore_patterns in
  let collected_files := [] in
  collected_files <-
    (if truthy directories
     then for_each (default [] directories) (collect_directory ignore_patterns) collected_files
     else ret collected_files) ;;
  collected_files <-
    (if truthy files
     then for_each (default [] files) (collect_file ignore_patterns) collected_files
     else ret collected_files) ;;
  ret (sorted_paths (pathlib env) (path_set (pathlib env) collected_files)).

(** ** read_file_content *)

(** The numbered rendering: [f"{i:>4}→{line}"] for each line, from 1. *)
Definition number_lines (content : str) : str :=
  join [10%N]
    (imap (fun i line => rjust 4 (str_of_nat (S i)) ++ [arrow] ++ line)
       (splitlines content)).

Definition render (include_line_numbers : bool) (content : str) : str :=
  if include_line_numbers then number_lines content else content.

Definition read_file_content (file_path : Path) (include_line_numbers : bool) : M str :=
  try_except
    (content <- read_text file_path UTF8 ;;
     ret (render include_line_numbers content))
    [(is_UnicodeDecodeError, fun _ =>
        try_except
          (content <- read_text file_path Latin1 ;;
           if forallb (fun c => c <? 128)%N (take 100 content)
           then ret (render include_line_numbers content)
           else ret (lit "[Binary file - content not displayed]"))
          [(is_Exception, fun _ => ret (lit "[Error reading file: Unable to decode]"))]);
     (is_Exception, fun e =>
        ret (lit "[Error reading file: " ++ exn_msg e ++ lit "]"))].

(** ** generate_file_summary *)

Definition summary_prompt (file_path : Path) (content : str) : str :=
  [10%N] ++
  lit "Analyze this file and provide a brief 1-2 sentence summary of its purpose and functionality."
  ++ [10; 10]%N ++ lit "File: " ++ path_str file_path
  ++ [10; 10]%N ++ lit "Content:" ++ [10%N] ++ lit "```" ++ [10%N]
  ++ take 2000 content ++ lit "..." ++ [10%N] ++ lit "```" ++ [10; 10]%N
  ++ lit "Respond only with the summary, no additional text." ++ [10%N].

Definition generate_file_summary (file_path : Path) (content : str) (model : str) : M str :=
  try_except
    (responses <- prompt (summary_prompt file_path content) [model] ;;
     if truthy responses && bool_decide (0 < length responses)
     then ret (strip (default [] (head responses)))
     else ret (lit "No summary available"))
    [(is_Exception, fun e =>
        log (LogSummaryFailed file_path e) ;;
        ret (lit "Summary generation failed"))].

(** ** count_max_backticks *)

Definition backtick : char := ch "`".

Fixpoint count_max_backticks_go (content : str) (max_backticks current_backticks : nat) : nat :=
  match content with
  | [] => max_backticks
  | c :: rest =>
      if decide (c = backtick) then
        let current_backticks := current_backticks + 1 in
        count_max_backticks_go rest (max_backticks `max` current_backticks) current_backticks
      else count_max_backticks_go rest max_backticks 0
  end.
Definition count_max_backticks (content : str) : nat :=
  count_max_backticks_go content 0 0.

(** ** build_context *)

(** The fenced block of a file: for markdown, one backtick more than the
    longest run in the content. *)
Definition code_block (language file_content : str) : list str :=
  if decide (language = lit "markdown") then
    let max_backticks := count_max_backticks file_content in
    let fence_backticks := replicate (max_backticks + 1) backtick in
    [fence_backticks ++ language; file_content; fence_backticks; []]
  else
    [lit "```" ++ language; file_content; lit "```"; []].

(** The summary subsection. *)
Definition summary_section (summarize_model : option str) (file_path : Path)
    (file_content : str) : M (list str) :=
  if truthy summarize_model && negb (startswith file_content (lit "[")) then
    summary <- generate_file_summary file_path file_content (default [] summarize_model) ;;
    ret [lit "### Summary"; summary; []]
  else
    ret [lit "### Summary"; lit "[No summary available]"; []].

(** The body of [for file_path in collected_files]. In the guarded block
    only [Path.cwd()] can raise ([relative_to] is handled inside it, and both
    [read_file_content] and [generate_file_summary] handle every exception
    themselves), and it does so before any line is added: the lines are
    threaded through the block as a value. *)
Definition process_file (summarize_model : option str) (include_line_numbers : bool)
    (content_lines : list str) (file_path : Path) : M (list str) :=
  try_except
    (cwd_path <- Path_cwd ;;
     let relative_path := default file_path (relative_to file_path cwd_path) in
     file_content <- read_file_content file_path include_line_numbers ;;
     let language := get_file_language (str_lower env) file_path in
     let content_lines := content_lines ++ [lit "## " ++ path_str relative_path] in
     summary_lines <- summary_section summarize_model file_path file_content ;;
     let content_lines := content_lines ++ summary_lines in
     let content_lines := content_lines ++ [lit "### File Contents"] in
     ret (content_lines ++ code_block language file_content))
    [(is_Exception, fun e =>
        log (LogErrorProcessing file_path e) ;;
        ret (content_lines ++
               [lit "## " ++ path_str file_path; [];
                lit "[Error processing file: " ++ exn_msg e ++ lit "]"; []]))].

Definition config_error : exn :=
  mkExn ValueError (lit "At least one of 'directories' or 'files' must be provided").

(** The change of working directory before the guarded part: the value is
    [original_cwd]. *)
Definition enter_directory (current_working_directory : option str) : M (option str) :=
  if truthy current_working_directory then
    original_cwd <- os_getcwd ;;
    os_chdir (default [] current_working_directory) ;;
    log (LogChangedCwd (default [] current_working_directory)) ;;
    ret (Some original_cwd)
  else ret None.

(** The [finally] block. *)
Definition restore_directory (original_cwd : option str) : M unit :=
  if truthy original_cwd then
    os_chdir (default [] original_cwd) ;;
    log (LogRestoredCwd (default [] original_cwd))
  else ret tt.

(** The body of the [try] block. *)
Definition assemble
    (directories files : option (list str)) (output_file overview_text : option str)
    (summarize_model : option str) (ignore_patterns : option (list str))
    (base_directory : option str) (include_line_numbers : bool) : M str :=
  base_path <-
    (if truthy base_directory then ret (Path_of (default [] base_directory))
     else if truthy directories
       then ret (Path_of (default [] (head (default [] directories))))
     else if truthy files
       then ret (parent (Path_of (default [] (head (default [] files)))))
     else Path_cwd) ;;
  collected_files <- collect_files directories files ignore_patterns ;;
  log (LogCollected (length collected_files)) ;;
  let content_lines := [] in
  let content_lines :=
    if truthy overview_text
    then content_lines ++ [default [] overview_text; []]
    else content_lines in
  let content_lines := content_lines ++ [lit "# Files"; []] in
  content_lines <-
    for_each collected_files
      (process_file summarize_model include_line_numbers) content_lines ;;
  output_path <- Path_new output_file ;;
  path_mkdir (parent output_path) ;;
  write_text output_path (join [10%N] content_lines) ;;
  log (LogGenerated output_path) ;;
  ret (path_str output_path).

Definition build_context
    (directories files : option (list str)) (output_file overview_text : option str)
    (summarize_model : option str) (ignore_patterns : option (list str))
    (base_directory current_working_directory : option str)
    (include_line_numbers : bool) : M str :=
  if negb (truthy directories) && negb (truthy files) then raise config_error
  else
    log (LogBuilding directories files) ;;
    original_cwd <- enter_directory current_working_directory ;;
    try_finally
      (try_except
         (assemble directories files output_file overview_text summarize_model
            ignore_patterns base_directory include_line_numbers)
         [(is_Exception, fun e =>
             log (LogErrorWriting output_file e) ;;
             raise (mkExn ValueError (lit "Error writing context file: " ++ exn_msg e)))])
      (restore_directory original_cwd).

End Program.

(** * The vocabulary of the properties *)

(** ** Ignore rules *)

(** What it means for one pattern to match a path, in the words of the
    specification. *)
Definition pattern_matches (file_path : Path) (pattern : str) : Prop :=
  pattern = name file_path
  ∨ (∃ rest, pattern = ch "*" :: rest ∧ rest `suffix_of` name file_path)
  ∨ pattern ∈ parts file_path.

(** ** Language by suffix *)

(** The rule for a name with a dot, in the words of the specification: the
    name is split at the dots, the part before the first dot is the base
    name, and the suffixes are looked up in the table from the rightmost to
    the leftmost; the first one found gives the language, and [text] is the
    answer when none is found. *)
Fixpoint first_known (suffixes : list (list N)) : option (list N) :=
  match suffixes with
  | [] => None
  | s :: rest =>
      match LANGUAGE_MAP !! (dot :: s) with
      | Some language => Some language
      | None => first_known rest
      end
  end.

Definition language_by_suffix (filename : list N) : list N :=
  default (lit "text") (first_known (reverse (drop 1 (split dot filename)))).

(** What [str.lower()] does to ASCII text: the letters [A] to [Z] are
    folded and nothing else changes. *)
Definition ascii_lower (s : list N) : list N :=
  (fun c => if ((65 <=? c) && (c <=? 90))%N then (c + 32)%N else c) <$> s.

(** What the properties of the language assume of [str.lower()]; each holds
    of CPython's.
    - On ASCII text it is the ASCII folding.
    - It neither removes a dot nor makes one: the dot is its own lower
      case, and no other character has a dot in its lower case.
    - When the lower case of [t] is ASCII, the lower case of [s ++ t] ends
      with it. The characters are folded one by one; only the capital sigma
      is folded by what surrounds it, and its lower case is not ASCII, so
      [t] has none. The part before [t] may be folded otherwise than [s]
      alone would be. *)
Definition folds_ascii (lower : list N → list N) : Prop :=
  ∀ s, is_ascii s = true → lower s = ascii_lower s.
Definition keeps_dots (lower : list N → list N) : Prop :=
  ∀ s, dot ∈ lower s ↔ dot ∈ s.
Definition keeps_ascii_tail (lower : list N → list N) : Prop :=
  ∀ s t, is_ascii (lower t) = true → ∃ s', lower (s ++ t) = s' ++ lower t.

(** The shape of the keys of the table: a dot, then ASCII characters
    other than the dot. *)
Definition extension_like (k : list N) : bool :=
  match k with
  | c :: rest => bool_decide (c = dot) && negb (contains_char dot rest) && is_ascii k
  | [] => false
  end.

(** ** Runs of backticks *)

(** [has_run n s]: [s] contains [n] consecutive backticks. *)
Definition has_run (n : nat) (s : str) : Prop :=
  ∃ before after, s = before ++ replicate n backtick ++ after.

(** [longest_run n s]: such a run exists and no longer one does. *)
Definition longest_run (n : nat) (s : str) : Prop :=
  has_run n s ∧ ∀ m, has_run m s → m ≤ n.

(** ** The decoding policy and the effects of a computation *)

(** The decoding policy in the words of the specification: what the reader
    answers for the outcome of opening and reading the file (the message of
    the I/O error, or the bytes read). *)
Definition decoding_policy (outcome : list N + list byte) (include_line_numbers : bool) : str :=
  match outcome with
  | inl reason => lit "[Error reading file: " ++ reason ++ lit "]"
  | inr bs =>
      match utf8_decode bs with
      | Some text => render include_line_numbers (universal_newlines text)
      | None =>
          let text := universal_newlines (latin1_decode bs) in
          if forallb (fun c => c <? 128)%N (take 100 text)
          then render include_line_numbers text
          else lit "[Binary file - content not displayed]"
      end
  end.

(** The events a computation may add without touching the working
    directory. *)
Definition is_chdir (e : event) : Prop :=
  match e with EvChdir _ => True | _ => False end.

(** [extends w w']: [w'] is [w] after some more events, none of them a
    change of directory, in the same working directory. *)
Definition extends (w w' : world) : Prop :=
  cwd w' = cwd w ∧ ∃ evs, trace w' = trace w ++ evs ∧ Forall (fun e => ¬ is_chdir e) evs.


(** [total c]: [c] never raises. *)
Definition total {A} (c : M A) : Prop := ∀ w, ∃ a, (c w).1 = Ok a.

(** The prompts sent to the language model in a run. *)
Definition prompts (w : world) : list (list N * list (list N)) :=
  omap (fun e => match e with EvPrompt text models => Some (text, models) | _ => None end)
    (trace w).

(** ** Absent arguments *)

(** A list argument that was left out or is empty. *)
Definition empty_or_absent {A} (l : option (list A)) : Prop := l = None ∨ l = Some [].

(** ** What is gathered *)

Section Gathered.

Context (env : Env).

(** What the collector gathers, in the words of the specification, for a
    working directory [d] and ignore rules [pats]: a file passes when its
    size can be read and is not above one mebibyte; a directory that exists
    and is one gives the passing, not ignored regular files below it; an
    explicit file gives itself when it exists, is a regular file, is not
    ignored and passes. A test holds when it is answered, with [True]. *)
Definition holds (a : list N + bool) : bool :=
  match a with inr b => b | inl _ => false end.

Definition small_enough (d : list N) (p : Path) : bool :=
  match fs_stat_size env d p with
  | inr size => negb (1024 * 1024 <? size)%Z
  | inl _ => false
  end.

Definition walked_file (d : list N) (pats : list (list N)) (p : Path) : list Path :=
  if holds (fs_is_file env d p) && negb (should_ignore_file p pats) && small_enough d p
  then [p] else [].

Definition walked_files (d : list N) (pats : list (list N)) (directory : list N)
    : list Path :=
  if holds (fs_exists env d (Path_of directory)) && holds (fs_is_dir env d (Path_of directory))
  then (fs_rglob env d (Path_of directory)).1 ≫= walked_file d pats
  else [].

Definition explicit_file (d : list N) (pats : list (list N)) (file_str : list N)
    : list Path :=
  if holds (fs_exists env d (Path_of file_str)) && holds (fs_is_file env d (Path_of file_str))
     && negb (should_ignore_file (Path_of file_str) pats)
     && small_enough d (Path_of file_str)
  then [Path_of file_str] else [].

Definition gathered (d : list N) (directories files ignore_patterns : option (list (list N)))
    : list Path :=
  let pats := default DEFAULT_IGNORE_PATTERNS ignore_patterns in
  (default [] directories ≫= walked_files d pats)
  ++ (default [] files ≫= explicit_file d pats).

(** When collecting raises: one of the tests made outside any [try]
    raises, or the walk of a directory ends with an error. *)
Definition raises {A} (a : list N + A) : bool :=
  match a with inl _ => true | inr _ => false end.

Definition walk_fails (d : list N) (directory : list N) : bool :=
  match fs_exists env d (Path_of directory) with
  | inl _ => true
  | inr false => false
  | inr true =>
      match fs_is_dir env d (Path_of directory) with
      | inl _ => true
      | inr false => false
      | inr true =>
          existsb (fun p => raises (fs_is_file env d p)) (fs_rglob env d (Path_of directory)).1
          || bool_decide (is_Some (fs_rglob env d (Path_of directory)).2)
      end
  end.

Definition listing_fails (d : list N) (file_str : list N) : bool :=
  match fs_exists env d (Path_of file_str) with
  | inl _ => true
  | inr false => false
  | inr true => raises (fs_is_file env d (Path_of file_str))
  end.

Definition collect_fails (d : list N) (directories files : option (list (list N))) : bool :=
  existsb (walk_fails d) (default [] directories)
  || existsb (listing_fails d) (default [] files).

End Gathered.

(** ** A small file system for the examples

    Files are given by their absolute names; a directory exists when a
    file lies below it; [..] is resolved as the kernel does; a name with a
    component of more than 255 characters is refused, as by Linux. The
    working directory is gone when nothing lies below it. The language
    model answers every prompt with the same sentence. *)

Module Demo.

(** The lower case of the examples: the Unicode database cut down to Basic
    Latin, Latin-1 and the Kelvin sign. *)
Definition lower_char (c : N) : N :=
  if ((65 <=? c) && (c <=? 90))%N then (c + 32)%N
  else if ((192 <=? c) && (c <=? 222) && negb (c =? 215))%N then (c + 32)%N
  else if (c =? 8490)%N then 107%N
  else c.
Definition lower (s : list N) : list N := lower_char <$> s.

Definition bytes_of (s : string) : list byte := list_byte_of_string s.
Arguments bytes_of s%_string.

Definition files : list (list N * list byte) :=
  [ (lit "/w/README.md", bytes_of "# Title");
    (lit "/w/notes.md", bytes_of "Use ```` for fences");
    (lit "/w/data.json", bytes_of "[1, 2]");
    (lit "/w/src/main.py", bytes_of "print(1)");
    (lit "/w/blob.bin", [xff; xfe; x00; x80]);
    (lit "/w/latin.txt", [x63; x61; x66; x0a; xe9]) ].

(** The components of a name with every [..] resolved. *)
Fixpoint resolve (seen components : list (list N)) : list (list N) :=
  match components with
  | [] => seen
  | c :: rest =>
      if decide (c = lit "..") then resolve (removelast seen) rest
      else resolve (seen ++ [c]) rest
  end.

(** The absolute name a path denotes in the working directory [d]. *)
Definition absolute (d : list N) (p : Path) : list N :=
  match p_root p with
  | [] => path_str (mkPath (p_root (Path_of d))
                      (resolve [] (p_tail (Path_of d) ++ p_tail p)))
  | r => path_str (mkPath r (resolve [] (p_tail p)))
  end.

(** [ENAMETOOLONG] *)
Definition too_long (d : list N) (p : Path) : bool :=
  existsb (fun c => 255 <? length c) (split slash (absolute d p)).

Definition tested (d : list N) (p : Path) (answer : bool) : list N + bool :=
  if too_long d p then inl (lit "[Errno 36] File name too long") else inr answer.

Definition below (directory file : list N) : bool :=
  bool_decide ((directory ++ [slash]) `prefix_of` file).

Definition is_file (d : list N) (p : Path) : bool :=
  bool_decide (absolute d p ∈ files.*1).
Definition is_dir (d : list N) (p : Path) : bool :=
  existsb (below (absolute d p)) files.*1.

Definition rglob (d : list N) (p : Path) : list Path :=
  let a := absolute d p in
  (fun f => mkPath (p_root p) (p_tail p ++ split slash (drop (S (length a)) f)))
    <$> filter (fun f => below a f = true) files.*1.

Definition contents (d : list N) (p : Path) : list N + list byte :=
  match list_find (fun f => f.1 = absolute d p) files with
  | Some (_, (_, bs)) => inr bs
  | None => inl (lit "[Errno 2] No such file or directory")
  end.

Definition env : Env := {|
  str_lower := lower;
  pathlib := Pathlib312;
  fs_exists d p := tested d p (is_file d p || is_dir d p);
  fs_is_dir d p := tested d p (is_dir d p);
  fs_is_file d p := tested d p (is_file d p);
  fs_rglob d p := (rglob d p, None);
  fs_stat_size d p :=
    match contents d p with
    | inr bs => inr (Z.of_nat (length bs))
    | inl msg => inl msg
    end;
  fs_read_bytes := contents;
  fs_mkdir d p :=
    if is_file d p then Some (mkExn OSError (lit "[Errno 17] File exists")) else None;
  fs_write d p text :=
    if is_dir d p then Some (mkExn OSError (lit "[Errno 21] Is a directory")) else None;
  os_getcwd_error d :=
    if is_dir d (Path_of d) then None
    else Some (lit "[Errno 2] No such file or directory");
  os_chdir_to d target :=
    if is_dir d (Path_of target) then inr (absolute d (Path_of target))
    else inl (lit "[Errno 2] No such file or directory");
  llm_prompt text models := inr [lit " A short summary. "]
|}.

(** The same surroundings under the [pathlib] of CPython 3.11. *)
Definition env311 : Env := {|
  str_lower := str_lower env;
  pathlib := Pathlib311;
  fs_exists := fs_exists env;
  fs_is_dir := fs_is_dir env;
  fs_is_file := fs_is_file env;
  fs_rglob := fs_rglob env;
  fs_stat_size := fs_stat_size env;
  fs_read_bytes := fs_read_bytes env;
  fs_mkdir := fs_mkdir env;
  fs_write := fs_write env;
  os_getcwd_error := os_getcwd_error env;
  os_chdir_to := os_chdir_to env;
  llm_prompt := llm_prompt env
|}.

Definition start : world := mkWorld (lit "/w") [].

(** The text written by a run, if it wrote one. *)
Definition written (w : world) : option (list N) :=
  match omap (fun e => match e with EvWrite _ text => Some text | _ => None end) (trace w) with
  | [text] => Some text
  | _ => None
  end.

End Demo.

(** ** Further vocabulary *)

(** [occurs_in needle s]: [needle] is a contiguous part of [s]. *)
Definition occurs_in (needle s : list N) : Prop :=
  ∃ before after, s = before ++ needle ++ after.

(** A non-empty word of lower-case ASCII letters. *)
Definition lowercase_word (l : list N) : bool :=
  negb (bool_decide (l = [])) && forallb (fun c => (97 <=? c) && (c <=? 122))%N l.

(** The language of a name that is already in lower case: by suffix when it
    has a dot, by the rule for well-known names when it has none. *)
Definition language_of_filename (filename : list N) : list N :=
  if contains_char dot filename then language_by_suffix filename
  else if bool_decide (filename ∈ lit <$> ["dockerfile"; "makefile"; "rakefile"; "gemfile"]%string)
    then filename
  else if startswith filename (lit "makefile") then lit "makefile"
  else lit "text".

(** [path / child_1 / ... / child_n] for relative components. *)
Definition descend (p : Path) (children : list (list N)) : Path :=
  mkPath (p_root p) (p_tail p ++ children).

(** [adds P w w']: [w'] is [w] after some more events, all of them in [P]. *)
Definition adds (P : event → Prop) (w w' : world) : Prop :=
  ∃ evs, trace w' = trace w ++ evs ∧ Forall P evs.

(** [emits_only P c]: from every world, [c] records only events in [P]. *)
Definition emits_only {A} (P : event → Prop) (c : M A) : Prop :=
  ∀ w, adds P w (c w).2.

(** The events of looking at the file system and of logging. *)
Definition is_read (e : event) : Prop :=
  match e with
  | EvFs OpMkdir _ => False
  | EvFs _ _ => True
  | EvLog _ => True
  | _ => False
  end.

(** An event that, if it writes a file, writes [target]. *)
Definition writes_only_to (target : option Path) (e : event) : Prop :=
  match e with
  | EvWrite p _ => target = Some p
  | _ => True
  end.

(** Whether the outcome of opening and reading a file is shown as text:
    the bytes are UTF-8, or the first 100 characters of their single-byte
    decoding are ASCII. *)
Definition read_as_text (outcome : list N + list byte) : bool :=
  match outcome with
  | inl _ => false
  | inr bs =>
      match utf8_decode bs with
      | Some _ => true
      | None => forallb (fun c => c <? 128)%N (take 100 (universal_newlines (latin1_decode bs)))
      end
  end.

(** An event that does not write a file. *)
Definition not_a_write (e : event) : Prop :=
  match e with EvWrite _ _ => False | _ => True end.

(** The lines before the first section: the overview, when there is one,
    and the heading of the files. *)
Definition heading_lines (overview_text : option (list N)) : list (list N) :=
  (if truthy overview_text then [default [] overview_text; []] else [])
  ++ [lit "# Files"; []].

(** An event that is not a prompt. *)
Definition not_a_prompt (e : event) : Prop :=
  match e with EvPrompt _ _ => False | _ => True end.

(** The order of paths, on what is compared. *)
Definition key_lt (k1 k2 : list (list N)) : Prop := lex_ltb str_ltb k1 k2 = true.

(** [outcome_is run w fails value]: the run from [w] stayed in the working
    directory; it raised an [OSError] when [fails], and returned [value]
    otherwise. *)
Definition outcome_is {A} (run : result A * world) (w : world) (fails : bool) (value : A)
    : Prop :=
  extends w run.2
  ∧ if fails then ∃ e, run.1 = Raise e ∧ exn_kind e = OSError else run.1 = Ok value.

(** Whether [os.getcwd()] answers in the working directory [d]. *)
Definition cwd_known (env : Env) (d : list N) : bool :=
  match os_getcwd_error env d with None => true | Some _ => false end.

(** The section written for a file whose processing raised [e]. *)
Definition error_section (file_path : Path) (e : exn) : list (list N) :=
  [lit "## " ++ path_str file_path; [];
   lit "[Error processing file: " ++ exn_msg e ++ lit "]"; []].

(** The summary of a file, by the answer of the language model. *)
Definition summary_of (env : Env) (file_path : Path) (content model : list N) : list N :=
  match llm_prompt env (summary_prompt file_path content) [model] with
  | inl _ => lit "Summary generation failed"
  | inr [] => lit "No summary available"
  | inr (response :: _) => strip response
  end.

(** The section of one file in the document, in the words of the
    specification, for the working directory [d]: a heading with the
    displayed path, the summary subsection and the fenced content; or the
    error note when the working directory cannot be determined. *)
Definition file_section (env : Env) (d : list N) (summarize_model : option (list N))
    (include_line_numbers : bool) (file_path : Path) : list (list N) :=
  match os_getcwd_error env d with
  | Some msg => error_section file_path (mkExn OSError msg)
  | None =>
      let file_content :=
        decoding_policy (fs_read_bytes env d file_path) include_line_numbers in
      [lit "## " ++ path_str (default file_path (relative_to file_path (Path_of d)));
       lit "### Summary";
       if truthy summarize_model && negb (startswith file_content (lit "["))
       then summary_of env file_path file_content (default [] summarize_model)
       else lit "[No summary available]";
       [];
       lit "### File Contents"]
      ++ code_block (get_file_language (str_lower env) file_path) file_content
  end.

(** The sections of the document: one for each collected file, in the
    order of the collector. *)
Definition document_sections (env : Env) (d : list N)
    (directories files ignore_patterns : option (list (list N)))
    (summarize_model : option (list N)) (include_line_numbers : bool) : list (list N) :=
  sorted_paths (pathlib env)
    (path_set (pathlib env) (gathered env d directories files ignore_patterns))
  ≫= file_section env d summarize_model include_line_numbers.

(** The texts written in a run, in order. *)
Definition texts_written (w : world) : list (list N) :=
  omap (fun e => match e with EvWrite _ text => Some text | _ => None end) (trace w).

(** A line without any of the line boundaries of [str.splitlines()]. *)
Definition is_linebreak_free (line : list N) : Prop :=
  Forall (fun c => is_linebreak c = false) line.

(** * Properties *)

(** ** The embedding at work *)

Example language_samples :
  get_file_language Demo.lower (Path_of (lit "config.yaml.example")) = lit "yaml" ∧
  get_file_language Demo.lower (Path_of (lit "src/App.JS.backup")) = lit "javascript" ∧
  get_file_language Demo.lower (Path_of (lit "Dockerfile")) = lit "dockerfile" ∧
  get_file_language Demo.lower (Path_of (lit "Makefile.in")) = lit "text" ∧
  get_file_language Demo.lower (Path_of (lit "unknown.xyz.example")) = lit "text" ∧
  get_file_language Demo.lower (Path_of (lit "a." ++ [8490%N] ++ lit "t")) = lit "kotlin".
Proof. vm_compute. done. Qed.

Example ignore_samples :
  let pats := lit <$> [".git"; "__pycache__"; "node_modules"; "*.pyc"]%string in
  should_ignore_file (Path_of (lit "src/.git/config")) pats = true ∧
  should_ignore_file (Path_of (lit "test.pyc")) pats = true ∧
  should_ignore_file (Path_of (lit "src/main.py")) pats = false.
Proof. vm_compute. done. Qed.

Example string_samples :
  splitlines (lit "a" ++ [13; 10]%N ++ lit "b" ++ [10; 10]%N) = [lit "a"; lit "b"; []] ∧
  rjust 4 (str_of_nat 12) = lit "  12" ∧
  strip (lit "  ok " ++ [10]%N) = lit "ok" ∧
  utf8_decode [x41; xe2; x86; x92] = Some [65; 8594]%N ∧
  utf8_decode [x41; xff] = None ∧
  utf8_decode [xc0; x80] = None ∧
  utf8_decode [xed; xa0; x80] = None.
Proof. vm_compute. done. Qed.

(** The two orders of [pathlib] differ where a relative name starts with a
    character below the slash: the root sorts as [/] up to CPython 3.11 and
    as the empty string from 3.12 on. *)
Example path_order_samples :
  let paths := Path_of ∘ lit <$> ["b/c"; "/a"; "b"; "./b/c"; ".x"; "a/z"]%string in
  sorted_paths Pathlib312 (path_set Pathlib312 paths)
  = Path_of ∘ lit <$> ["/a"; ".x"; "a/z"; "b"; "b/c"]%string
  ∧ sorted_paths Pathlib311 (path_set Pathlib311 paths)
    = Path_of ∘ lit <$> [".x"; "/a"; "a/z"; "b"; "b/c"]%string.
Proof. vm_compute. done. Qed.

(** ** The ignore rules *)

Lemma startswith_star (pattern : str) :
  startswith pattern [ch "*"] = true ↔ ∃ rest, pattern = ch "*" :: rest.
Proof.
  unfold startswith. rewrite bool_decide_eq_true. split.
  - intros [k ->]. by exists k.
  - intros [rest ->]. by exists rest.
Qed.

Lemma should_ignore_file_iff (file_path : Path) (ignore_patterns : list str) :
  should_ignore_file file_path ignore_patterns = true
  ↔ ∃ pattern, pattern ∈ ignore_patterns ∧ pattern_matches file_path pattern.
Proof.
  induction ignore_patterns as [|pattern rest IH]; simpl.
  - split; [done | intros (? & []%elem_of_nil & _)].
  - destruct (bool_decide_reflect (pattern = name file_path)) as [Heq|Hne].
    { split; [|done]. intros _. exists pattern. split; [left | by left]. }
    destruct (startswith pattern [ch "*"] && endswith (name file_path) (drop 1 pattern))
      eqn:Hwild.
    { split; [|done]. intros _. exists pattern. split; [left |].
      apply andb_true_iff in Hwild as [[r ->]%startswith_star Hsuf].
      right; left. exists r. split; [done|].
      by apply bool_decide_eq_true in Hsuf. }
    destruct (bool_decide_reflect (pattern ∈ parts file_path)) as [Hin|Hnin].
    { split; [|done]. intros _. exists pattern. split; [left | by right; right]. }
    rewrite IH. split.
    + intros (q & Hq & Hm). exists q. split; [by right | done].
    + intros (q & Hq & Hm). apply elem_of_cons in Hq as [->|Hq]; [|by exists q].
      exfalso. destruct Hm as [Hm | [(r & -> & Hm) | Hm]]; [done | | done].
      apply andb_false_iff in Hwild as [Hw | Hw].
      * assert (startswith (ch "*" :: r) [ch "*"] = true) by (apply startswith_star; eauto).
        congruence.
      * simpl in Hw. unfold endswith in Hw. rewrite drop_0 in Hw.
        by apply bool_decide_eq_false in Hw.
Qed.

(** C5. A path is ignored exactly when some pattern of the list equals its
    base name, or starts with a star and its remainder is a suffix of the
    base name, or equals one of the components of the path; reordering the
    patterns does not change the answer. *)
Theorem should_ignore_file_any_pattern (file_path : Path) (ignore_patterns : list str) :
  (should_ignore_file file_path ignore_patterns = true
   ↔ ∃ pattern, pattern ∈ ignore_patterns ∧ pattern_matches file_path pattern)
  ∧ (∀ reordered, reordered ≡ₚ ignore_patterns →
       should_ignore_file file_path reordered
       = should_ignore_file file_path ignore_patterns).
Proof.
  split; [apply should_ignore_file_iff |].
  intros reordered Hperm.
  apply eq_true_iff_eq. rewrite !should_ignore_file_iff.
  by setoid_rewrite Hperm.
Qed.

(** ** The longest run of backticks *)

Lemma count_go_ge_max content m c : m ≤ count_max_backticks_go content m c.
Proof.
  revert m c. induction content as [|x rest IH]; intros m c; simpl; [lia|].
  case_decide.
  - etrans; [|apply IH]. lia.
  - apply IH.
Qed.

Lemma count_go_run_prefix k after m c :
  c + k ≤ count_max_backticks_go (replicate k backtick ++ after) (m `max` c) c.
Proof.
  revert m c. induction k as [|k IH]; intros m c; simpl.
  - etrans; [|apply count_go_ge_max]. lia.
  - replace ((m `max` c) `max` (c + 1)) with (m `max` (c + 1)) by lia.
    etrans; [|apply IH]. lia.
Qed.

Lemma count_go_upper content m c n :
  has_run n content → n ≤ count_max_backticks_go content m c.
Proof.
  intros (before & after & ->). revert m c.
  induction before as [|x before IH]; intros m c.
  - destruct n as [|n]; [lia|]. simpl.
    replace (m `max` (c + 1)) with ((m `max` (c + 1)) `max` (c + 1)) by lia.
    etrans; [|apply count_go_run_prefix]. lia.
  - simpl. case_decide; apply IH.
Qed.

Lemma run_extend c (rest : str) :
  replicate c backtick ++ backtick :: rest = replicate (S c) backtick ++ rest.
Proof. by rewrite replicate_S_end, <-app_assoc. Qed.

Lemma count_go_attained content m c :
  count_max_backticks_go content m c = m
  ∨ has_run (count_max_backticks_go content m c) (replicate c backtick ++ content).
Proof.
  revert m c. induction content as [|x rest IH]; intros m c; simpl; [by left|].
  case_decide as Hx.
  - subst x. rewrite run_extend.
    destruct (IH (m `max` (c + 1)) (c + 1)) as [Heq | (b & a & Hrun)].
    + rewrite Heq. destruct (decide (c + 1 ≤ m)); [left; lia | right].
      exists [], rest. by replace (m `max` (c + 1)) with (S c) by lia.
    + right. exists b, a. rewrite <-Hrun. by replace (c + 1) with (S c) by lia.
  - destruct (IH m 0) as [Heq | (b & a & Hrun)]; [by left | right].
    exists (replicate c backtick ++ x :: b), a.
    simpl in Hrun. rewrite Hrun at 1. by rewrite <-app_assoc.
Qed.

Lemma count_max_backticks_longest_run content :
  longest_run (count_max_backticks content) content.
Proof.
  split.
  - destruct (count_go_attained content 0 0) as [Heq | Hrun]; [|done].
    unfold count_max_backticks. rewrite Heq. by exists [], content.
  - intros m. apply count_go_upper.
Qed.

Lemma longest_run_unique n m s : longest_run n s → longest_run m s → n = m.
Proof. intros [Hn Hn'] [Hm Hm']. apply Hm' in Hn. apply Hn' in Hm. lia. Qed.

(** ** Reading a file *)

Lemma extends_refl w : extends w w.
Proof. split; [done|]. exists []. by rewrite app_nil_r. Qed.

Lemma extends_trans w1 w2 w3 : extends w1 w2 → extends w2 w3 → extends w1 w3.
Proof.
  intros [Hc1 (e1 & Ht1 & Hf1)] [Hc2 (e2 & Ht2 & Hf2)]. split; [congruence|].
  exists (e1 ++ e2). rewrite Ht2, Ht1, app_assoc. split; [done|].
  by apply Forall_app.
Qed.

Lemma extends_record e w : ¬ is_chdir e → extends w (record_event e w).
Proof. intros He. split; [done|]. exists [e]. split; [done|]. by constructor. Qed.

Lemma extends_record_r e w w' :
  extends w w' → ¬ is_chdir e → extends w (record_event e w').
Proof. intros H He. eapply extends_trans; [exact H | by apply extends_record]. Qed.

(** Closes [extends w w'] when [w'] is [w] with some events recorded. *)
Ltac solve_extends :=
  repeat (apply extends_record_r; [|by intros []]); apply extends_refl.

Section Effects.

Context (env : Env).

Lemma bind_Ok {A B} (c : M A) (k : A → M B) w a w' :
  c w = (Ok a, w') → bind c k w = k a w'.
Proof. unfold bind. by intros ->. Qed.

Lemma bind_Raise {A B} (c : M A) (k : A → M B) w e w' :
  c w = (Raise e, w') → bind c k w = (Raise e, w').
Proof. unfold bind. by intros ->. Qed.

Lemma try_except_Ok {A} (c : M A) handlers w a w' :
  c w = (Ok a, w') → try_except c handlers w = (Ok a, w').
Proof. unfold try_except. by intros ->. Qed.

Lemma try_except_Raise {A} (c : M A) handlers w e w' :
  c w = (Raise e, w') → try_except c handlers w = dispatch handlers e w'.
Proof. unfold try_except. by intros ->. Qed.











Lemma total_ret {A} (a : A) : total (ret a).
Proof. intros w. by exists a. Qed.

Lemma total_bind {A B} (c : M A) (k : A → M B) :
  total c → (∀ a, total (k a)) → total (bind c k).
Proof.
  intros Hc Hk w. unfold bind. destruct (Hc w) as [a Ha].
  destruct (c w) as [[a'|e] w']; simpl in *; [apply Hk | done].
Qed.

Lemma total_for_each {A S} (l : list A) (body : S → A → M S) s :
  (∀ s x, total (body s x)) → total (for_each l body s).
Proof.
  intros Hb. revert s. induction l as [|x l IH]; intros s; simpl.
  - apply total_ret.
  - apply total_bind; [apply Hb | done].
Qed.

(** A statement guarded by [except Exception] whose handler never raises. *)
Lemma total_try_except_all {A} (c : M A) (h : exn → M A) rest :
  (∀ e, total (h e)) → total (try_except c ((is_Exception, h) :: rest)).
Proof.
  intros Hh w. unfold try_except. destruct (c w) as [[a|e] w']; [by exists a|].
  simpl. apply Hh.
Qed.

Lemma total_log r : total (log r).
Proof. intros w. by exists tt. Qed.

Lemma read_file_content_eq file_path include_line_numbers w :
  ∃ w', read_file_content env file_path include_line_numbers w
        = (Ok (decoding_policy (fs_read_bytes env (cwd w) file_path)
                 include_line_numbers), w')
        ∧ extends w w'.
Proof.
  unfold read_file_content, try_except, bind, read_text, decoding_policy, ret. simpl.
  destruct (fs_read_bytes env (cwd w) file_path) as [msg|bs] eqn:Hbytes; simpl.
  { eexists. split; [done|]. solve_extends. }
  destruct (utf8_decode bs); simpl.
  { eexists. split; [done|]. solve_extends. }
  rewrite Hbytes. simpl.
  destruct (forallb _ _); simpl; (eexists; split; [done|]); solve_extends.
Qed.

Lemma generate_file_summary_eq file_path content model w :
  ∃ summary w',
    generate_file_summary env file_path content model w = (Ok summary, w')
    ∧ cwd w' = cwd w
    ∧ ∃ evs, trace w' = trace w ++ EvPrompt (summary_prompt file_path content) [model] :: evs
             ∧ Forall (fun e => ¬ is_chdir e) evs.
Proof.
  unfold generate_file_summary, try_except, bind, prompt, ret. simpl.
  destruct (llm_prompt env _ _) as [e|responses]; simpl.
  - do 2 eexists. split; [done|]. split; [done|].
    exists [EvLog (LogSummaryFailed file_path e)]. simpl.
    rewrite <-app_assoc. split; [done|]. constructor; [by intros [] | constructor].
  - destruct (truthy responses && _); (do 2 eexists; split; [done|]; split; [done|]);
      by exists [].
Qed.

(** When the summary subsection asks the summarizer, and what it writes
    when it does not. *)
Lemma summary_section_eq summarize_model file_path file_content w :
  if truthy summarize_model && negb (startswith file_content (lit "["))
  then ∃ summary w',
         summary_section env summarize_model file_path file_content w
         = (Ok [lit "### Summary"; summary; []], w')
         ∧ cwd w' = cwd w
         ∧ ∃ evs, trace w' = trace w
                    ++ EvPrompt (summary_prompt file_path file_content)
                         [default [] summarize_model] :: evs
                  ∧ Forall (fun e => ¬ is_chdir e) evs
  else summary_section env summarize_model file_path file_content w
       = (Ok [lit "### Summary"; lit "[No summary available]"; []], w).
Proof.
  unfold summary_section. destruct (truthy summarize_model && _); [|done].
  destruct (generate_file_summary_eq file_path file_content (default [] summarize_model) w)
    as (summary & w' & Hrun & Hcwd & Hevs).
  exists summary, w'. unfold bind. rewrite Hrun. by simpl.
Qed.

Lemma summary_section_extends summarize_model file_path file_content w :
  ∃ summary_lines w',
    summary_section env summarize_model file_path file_content w = (Ok summary_lines, w')
    ∧ extends w w'.
Proof.
  pose proof (summary_section_eq summarize_model file_path file_content w) as H.
  destruct (truthy summarize_model && _).
  - destruct H as (summary & w' & Hrun & Hcwd & evs & Ht & Hf).
    do 2 eexists. split; [done|]. split; [done|].
    eexists. split; [done|]. constructor; [by intros [] | done].
  - do 2 eexists. split; [done|]. apply extends_refl.
Qed.

(** The section of one file when [Path.cwd()] answers: the heading with the
    path relative to the working directory when that is possible, the
    summary subsection, and the fenced content. *)
Lemma process_file_eq summarize_model include_line_numbers content_lines file_path w :
  os_getcwd_error env (cwd w) = None →
  let w1 := record_event EvGetcwd w in
  let file_content :=
    decoding_policy (fs_read_bytes env (cwd w) file_path) include_line_numbers in
  ∃ w2 summary_lines w3,
    read_file_content env file_path include_line_numbers w1 = (Ok file_content, w2)
    ∧ summary_section env summarize_model file_path file_content w2
      = (Ok summary_lines, w3)
    ∧ process_file env summarize_model include_line_numbers content_lines file_path w
      = (Ok ((((content_lines
                ++ [lit "## " ++ path_str (default file_path
                                   (relative_to file_path (Path_of (cwd w))))])
               ++ summary_lines) ++ [lit "### File Contents"])
             ++ code_block (get_file_language (str_lower env) file_path) file_content), w3)
    ∧ extends w w3.
Proof.
  intros Hcwd w1 file_content.
  destruct (read_file_content_eq file_path include_line_numbers w1)
    as (w2 & Hread & Hext2).
  destruct (summary_section_extends summarize_model file_path file_content w2)
    as (summary_lines & w3 & Hsum & Hext3).
  exists w2, summary_lines, w3. split; [done|]. split; [done|]. split.
  - unfold process_file. apply try_except_Ok.
    assert (Path_cwd env w = (Ok (Path_of (cwd w)), w1)) as Hpath.
    { unfold Path_cwd, bind, os_getcwd, ret. by rewrite Hcwd. }
    erewrite bind_Ok; [|exact Hpath].
    erewrite bind_Ok; [|exact Hread].
    by erewrite bind_Ok; [|exact Hsum].
  - eapply extends_trans; [|exact Hext3].
    eapply extends_trans; [|exact Hext2]. solve_extends.
Qed.

(** The section of one file when [Path.cwd()] raises: nothing is read and
    nothing is asked; the error is logged and written in place of the
    section. *)
Lemma process_file_without_cwd summarize_model include_line_numbers content_lines
    file_path w msg :
  os_getcwd_error env (cwd w) = Some msg →
  process_file env summarize_model include_line_numbers content_lines file_path w
  = (Ok (content_lines ++ error_section file_path (mkExn OSError msg)),
     record_event (EvLog (LogErrorProcessing file_path (mkExn OSError msg)))
       (record_event EvGetcwd w)).
Proof.
  intros Hcwd. unfold process_file.
  assert (Path_cwd env w = (Raise (mkExn OSError msg), record_event EvGetcwd w)) as Hpath.
  { unfold Path_cwd, bind, os_getcwd. by rewrite Hcwd. }
  erewrite try_except_Raise.
  2: { erewrite bind_Raise; [reflexivity | exact Hpath]. }
  reflexivity.
Qed.

(** Either way the section of a file is appended and nothing is raised. *)
Lemma process_file_appends summarize_model include_line_numbers content_lines file_path w :
  ∃ section w',
    process_file env summarize_model include_line_numbers content_lines file_path w
    = (Ok (content_lines ++ section), w')
    ∧ extends w w'.
Proof.
  destruct (os_getcwd_error env (cwd w)) as [msg|] eqn:Hcwd.
  - rewrite (process_file_without_cwd _ _ _ _ _ _ Hcwd).
    eexists _, _. split; [done | solve_extends].
  - destruct (process_file_eq summarize_model include_line_numbers content_lines
                file_path w Hcwd) as (w2 & summary_lines & w3 & _ & _ & -> & Hext).
    eexists _, w3. split; [|done]. by rewrite <-!app_assoc.
Qed.

(** A failing summarizer is logged and replaced by a fixed sentence. *)
Lemma total_generate_file_summary file_path content model :
  total (generate_file_summary env file_path content model).
Proof.
  unfold generate_file_summary. apply total_try_except_all. intros e.
  apply total_bind; [apply total_log | intros _; apply total_ret].
Qed.

(** Neither the reader nor the section of a file ever raises. *)
Lemma total_read_file_content file_path include_line_numbers :
  total (read_file_content env file_path include_line_numbers).
Proof.
  intros w. destruct (read_file_content_eq file_path include_line_numbers w)
    as (w' & -> & _). by eexists.
Qed.

Lemma total_process_file summarize_model include_line_numbers content_lines file_path :
  total (process_file env summarize_model include_line_numbers content_lines file_path).
Proof.
  intros w.
  destruct (process_file_appends summarize_model include_line_numbers content_lines
              file_path w) as (? & ? & -> & _).
  by eexists.
Qed.

Lemma total_sections summarize_model include_line_numbers content_lines collected_files :
  total (for_each collected_files (process_file env summarize_model include_line_numbers)
           content_lines).
Proof. apply total_for_each. intros. apply total_process_file. Qed.

End Effects.

(** C7. Reading a file always ends with a string, whatever the file system
    answers: the rendered text when the bytes are UTF-8; when they are not,
    the text of the single-byte decoding if its first 100 characters are
    ASCII and the binary placeholder otherwise; the error placeholder with
    the reason when the file cannot be opened or read. *)
Theorem read_file_content_never_raises (env : Env) (file_path : Path)
    (include_line_numbers : bool) (w : world) :
  ∃ w', read_file_content env file_path include_line_numbers w
        = (Ok (decoding_policy (fs_read_bytes env (cwd w) file_path)
                 include_line_numbers), w').
Proof.
  destruct (read_file_content_eq env file_path include_line_numbers w) as (w' & H & _).
  by exists w'.
Qed.

Example decoding_samples :
  decoding_policy (inr [x61; x0d; x0a; xe2; x86; x92]) false = [97; 10; 8594]%N
  ∧ decoding_policy (inr [x61; x0a; x62]) true
    = lit "   1" ++ [arrow] ++ lit "a" ++ [10%N] ++ lit "   2" ++ [arrow] ++ lit "b"
  ∧ decoding_policy (inr [xff; xfe; x00; x80]) true
    = lit "[Binary file - content not displayed]"
  ∧ decoding_policy (inr (replicate 100 x61 ++ [xe9])) false
    = replicate 100 97%N ++ [233%N]
  ∧ decoding_policy (inl (lit "[Errno 13] Permission denied")) true
    = lit "[Error reading file: [Errno 13] Permission denied]".
Proof. vm_compute. done. Qed.

(** ** The fence of a file's content *)

(** C1, at an input where the code departs from it. [README.md] resolves
    to markdown and its content, [# Title], has no backtick: in the document
    written it is wrapped in a fence of one backtick, which is fewer than
    four and not a fence of Markdown at all, while every other language
    gets three. *)
Theorem markdown_fence_below_four :
  get_file_language (str_lower Demo.env) (Path_of (lit "README.md")) = lit "markdown"
  ∧ fs_read_bytes Demo.env (lit "/w") (Path_of (lit "README.md"))
    = inr (Demo.bytes_of "# Title")
  ∧ Demo.written
      (build_context Demo.env None (Some [lit "README.md"]) (Some (lit "out.md"))
         None None None None None true Demo.start).2
    = Some (join [10%N]
              [lit "# Files"; [];
               lit "## README.md";
               lit "### Summary"; lit "[No summary available]"; [];
               lit "### File Contents";
               lit "`markdown"; lit "   1" ++ [arrow] ++ lit "# Title"; lit "`"; []])
  ∧ length (lit "`") < 4.
Proof. vm_compute. repeat split; lia. Qed.

Example markdown_fence_samples :
  code_block (lit "markdown") (lit "a ``` b") = [lit "````markdown"; lit "a ``` b"; lit "````"; []]
  ∧ code_block (lit "markdown") (lit "`````") = [lit "``````markdown"; lit "`````"; lit "``````"; []]
  ∧ code_block (lit "python") (lit "`````") = [lit "```python"; lit "`````"; lit "```"; []].
Proof. vm_compute. done. Qed.

(** ** The summary subsection *)

(** C2, at an input where the code departs from it. The file [data.json]
    is read without any failure and a summarization model is given, yet with
    line numbering off its content starts with a bracket, which the test
    before the summary takes for a failed read: the placeholder is written
    and the summarizer is not called. *)
Theorem summary_skipped_after_successful_read :
  let run :=
    build_context Demo.env None (Some [lit "data.json"]) (Some (lit "out.md")) None
      (Some (lit "gpt")) None None None false Demo.start in
  fs_read_bytes Demo.env (lit "/w") (Path_of (lit "data.json"))
  = inr (Demo.bytes_of "[1, 2]")
  ∧ utf8_decode (Demo.bytes_of "[1, 2]") = Some (lit "[1, 2]")
  ∧ run.1 = Ok (lit "out.md")
  ∧ Demo.written run.2
    = Some (join [10%N]
              [lit "# Files"; [];
               lit "## data.json";
               lit "### Summary"; lit "[No summary available]"; [];
               lit "### File Contents";
               lit "```json"; lit "[1, 2]"; lit "```"; []])
  ∧ prompts run.2 = [].
Proof. vm_compute. done. Qed.

(** The same call with line numbering on: the summarizer is asked once and
    its answer, stripped, is the summary. *)
Example summary_requested_with_line_numbers :
  let run :=
    build_context Demo.env None (Some [lit "data.json"]) (Some (lit "out.md")) None
      (Some (lit "gpt")) None None None true Demo.start in
  Demo.written run.2
  = Some (join [10%N]
            [lit "# Files"; [];
             lit "## data.json";
             lit "### Summary"; lit "A short summary."; [];
             lit "### File Contents";
             lit "```json"; lit "   1" ++ [arrow] ++ lit "[1, 2]"; lit "```"; []])
  ∧ length (prompts run.2) = 1.
Proof. vm_compute. done. Qed.

(** ** The base directory *)

(** C3, at an input where the code departs from it. In the working
    directory [/w/src] the file [../README.md] is [/w/README.md], which lies
    outside it; [relative_to] raises, and the heading written is the path as
    it was given, [../README.md], which is not absolute. The base directory
    plays no part, as the claim says. *)
Theorem outside_file_heading_not_absolute :
  let run base_directory :=
    build_context Demo.env None (Some [lit "../README.md"]) (Some (lit "out.md")) None
      None None base_directory None false (mkWorld (lit "/w/src") []) in
  Demo.absolute (lit "/w/src") (Path_of (lit "../README.md")) = lit "/w/README.md"
  ∧ relative_to (Path_of (lit "/w/README.md")) (Path_of (lit "/w/src")) = None
  ∧ (run None).1 = Ok (lit "out.md")
  ∧ Demo.written (run None).2
    = Some (join [10%N]
              [lit "# Files"; [];
               lit "## ../README.md";
               lit "### Summary"; lit "[No summary available]"; [];
               lit "### File Contents";
               lit "`markdown"; lit "# Title"; lit "`"; []])
  ∧ p_root (Path_of (lit "../README.md")) = []
  ∧ run (Some (lit "/w")) = run None.
Proof. vm_compute. done. Qed.

(** ** The configuration error *)

Lemma truthy_false_iff {A} (l : option (list A)) :
  truthy l = false ↔ empty_or_absent l.
Proof.
  unfold empty_or_absent, truthy, option_truthy, truthy, list_truthy.
  destruct l as [[|x l]|]; intuition congruence.
Qed.

(** The only exception that leaves the guarded part of [build_context]. *)
Lemma writing_error_not_config msg :
  mkExn ValueError (lit "Error writing context file: " ++ msg) ≠ config_error.
Proof. unfold config_error. intros H. inversion H as [Hmsg]. Qed.

Section Exits.

Context (env : Env).

Lemma enter_directory_cases current_working_directory w :
  (∃ original_cwd w', enter_directory env current_working_directory w = (Ok original_cwd, w'))
  ∨ (∃ msg w', enter_directory env current_working_directory w
               = (Raise (mkExn OSError msg), w')).
Proof.
  unfold enter_directory. destruct (truthy current_working_directory); [|left; by eauto].
  unfold bind, os_getcwd, os_chdir, log, emit, ret. simpl.
  destruct (os_getcwd_error env (cwd w)); simpl; [right; by eauto|].
  destruct (os_chdir_to env _ _); simpl; [right | left]; by eauto.
Qed.

Lemma restore_directory_cases original_cwd w :
  (∃ w', restore_directory env original_cwd w = (Ok tt, w'))
  ∨ (∃ msg w', restore_directory env original_cwd w = (Raise (mkExn OSError msg), w')).
Proof.
  unfold restore_directory. destruct (truthy original_cwd); [|left; by eauto].
  unfold bind, os_chdir, log, emit. simpl.
  destruct (os_chdir_to env _ _); simpl; [right | left]; by eauto.
Qed.

(** Whatever happens in the guarded part, it ends normally or with the
    one error of the [except] clause. *)
Lemma guarded_cases {A} (c : M A) (output_file : option (list N)) w :
  let guarded :=
    try_except c
      [(is_Exception, fun e =>
          log (LogErrorWriting output_file e) ;;
          raise (mkExn ValueError (lit "Error writing context file: " ++ exn_msg e)))] in
  (∃ a w', c w = (Ok a, w') ∧ guarded w = (Ok a, w'))
  ∨ (∃ e w', c w = (Raise e, w')
       ∧ guarded w
         = (Raise (mkExn ValueError (lit "Error writing context file: " ++ exn_msg e)),
            record_event (EvLog (LogErrorWriting output_file e)) w')).
Proof.
  intros guarded. subst guarded. unfold try_except.
  destruct (c w) as [[a|e] w']; [left | right]; by eauto.
Qed.

(** The exceptions that leave [build_context] once the two lists have been
    accepted. *)
Lemma build_context_exits directories files output_file overview_text summarize_model
    ignore_patterns base_directory current_working_directory include_line_numbers w :
  negb (truthy directories) && negb (truthy files) = false →
  match (build_context env directories files output_file overview_text summarize_model
           ignore_patterns base_directory current_working_directory
           include_line_numbers w).1 with
  | Ok output_path => True
  | Raise e =>
      exn_kind e = OSError
      ∨ ∃ msg, e = mkExn ValueError (lit "Error writing context file: " ++ msg)
  end.
Proof.
  intros Hargs. unfold build_context. rewrite Hargs.
  erewrite bind_Ok; [|reflexivity].
  destruct (enter_directory_cases current_working_directory
              (record_event (EvLog (LogBuilding directories files)) w))
    as [(original_cwd & w1 & Henter) | (msg & w1 & Henter)].
  2: { erewrite bind_Raise; [|exact Henter]. simpl. by left. }
  erewrite bind_Ok; [|exact Henter]. unfold try_finally.
  match goal with |- context [try_except ?c _ w1] =>
    destruct (guarded_cases c output_file w1)
      as [(a & w2 & _ & ->) | (e & w2 & _ & ->)]
  end.
  - destruct (restore_directory_cases original_cwd w2) as [(w3 & ->) | (msg & w3 & ->)];
      simpl; [done | by left].
  - match goal with |- context [restore_directory env original_cwd ?w0] =>
      destruct (restore_directory_cases original_cwd w0) as [(w3 & ->) | (msg & w3 & ->)]
    end; simpl; [right; by eauto | by left].
Qed.

End Exits.

(** C8. The configuration error is raised exactly when both lists are
    empty or absent, and then nothing has happened: the world is the one
    the call started in, with no event recorded. *)
Theorem build_context_config_error_iff (env : Env)
    (directories files : option (list (list N))) (output_file overview_text : option (list N))
    (summarize_model : option (list N)) (ignore_patterns : option (list (list N)))
    (base_directory current_working_directory : option (list N))
    (include_line_numbers : bool) (w : world) :
  let run := build_context env directories files output_file overview_text
               summarize_model ignore_patterns base_directory
               current_working_directory include_line_numbers w in
  (run.1 = Raise config_error ↔ empty_or_absent directories ∧ empty_or_absent files)
  ∧ (empty_or_absent directories ∧ empty_or_absent files → run.2 = w).
Proof.
  intros run. rewrite <-!truthy_false_iff.
  destruct (negb (truthy directories) && negb (truthy files)) eqn:Hargs.
  - apply andb_true_iff in Hargs as [Hd%negb_true_iff Hf%negb_true_iff].
    subst run. unfold build_context. rewrite Hd, Hf. simpl. by repeat split.
  - pose proof (build_context_exits env directories files output_file overview_text
                  summarize_model ignore_patterns base_directory
                  current_working_directory include_line_numbers w Hargs) as Hexits.
    fold run in Hexits.
    assert (¬ (truthy directories = false ∧ truthy files = false)) as Hnot.
    { intros [Hd Hf]. by rewrite Hd, Hf in Hargs. }
    split; [split |]; [|done|done].
    intros Hrun. rewrite Hrun in Hexits. destruct Hexits as [Hkind | [msg Hmsg]].
    + done.
    + symmetry in Hmsg. by apply writing_error_not_config in Hmsg.
Qed.

(** ** The working directory *)

Section Frame.

Context (env : Env).










End Frame.



Example build_context_failed_write :
  let run := build_context Demo.env (Some [lit "."]) None (Some (lit "/w/src"))
               None None None None (Some (lit "src")) true Demo.start in
  run.1 = Raise (mkExn ValueError
                   (lit "Error writing context file: [Errno 21] Is a directory"))
  ∧ omap (fun e => match e with EvChdir d => Some d | _ => None end) (trace run.2)
    = [lit "src"; lit "/w"].
Proof. vm_compute. done. Qed.

(** ** Resolving the language *)

Lemma split_nonempty c s : split c s ≠ [].
Proof. destruct s as [|d s]; simpl; [done|]. case_decide; [done|]. by destruct (split c s). Qed.

Lemma split_without sep x : sep ∉ x → split sep x = [x].
Proof.
  induction x as [|c x IH]; [done|]. intros Hx. apply not_elem_of_cons in Hx as [Hc Hx].
  simpl. rewrite decide_False by done. by rewrite IH.
Qed.

(** Splitting at a separator splits at every one of them. *)
Lemma split_app c x y : split c (x ++ c :: y) = split c x ++ split c y.
Proof.
  induction x as [|d x IH]; simpl.
  - by rewrite decide_True.
  - rewrite IH. case_decide; [done|].
    pose proof (split_nonempty c x). by destruct (split c x).
Qed.

(** The table is only ever evaluated at closed keys. *)
#[local] Opaque LANGUAGE_MAP.

(** The indices of the loop read the suffixes from the last to the first. *)
Lemma range_down_reads_reverse (base : list N) (suffixes : list (list N)) :
  (fun i => nth i (base :: suffixes) []) <$> range_down (length suffixes)
  = reverse suffixes.
Proof.
  induction suffixes as [|y suffixes IH] using rev_ind; [done|].
  rewrite length_app, Nat.add_1_r, reverse_snoc. simpl. f_equal.
  - rewrite app_nth2 by lia. by rewrite Nat.sub_diag.
  - rewrite <-IH. apply Forall_fmap_ext_1, Forall_forall. intros i Hi.
    assert (∀ n i, i ∈ range_down n → i ≤ n) as Hrange.
    { clear. induction n as [|n IHn]; simpl; [by intros ? ?%elem_of_nil|].
      intros i [->|Hi]%elem_of_cons; [lia|]. apply IHn in Hi. lia. }
    apply Hrange in Hi. destruct i as [|i]; [done|]. simpl.
    rewrite app_nth1 by lia. done.
Qed.

Lemma scan_extensions_first_known parts idx :
  scan_extensions parts idx = first_known ((fun i => nth i parts []) <$> idx).
Proof. induction idx as [|i idx IH]; simpl; [done|]. by rewrite IH. Qed.

Lemma scan_extensions_suffixes parts :
  scan_extensions parts (range_down (length parts - 1))
  = first_known (reverse (drop 1 parts)).
Proof.
  rewrite scan_extensions_first_known. destruct parts as [|base suffixes]; [done|].
  change (length (base :: suffixes) - 1) with (length suffixes - 0).
  rewrite Nat.sub_0_r. by rewrite range_down_reads_reverse.
Qed.

(** Every key of the table is a dot followed by ASCII characters other
    than the dot. *)
Lemma language_map_keys k language :
  LANGUAGE_MAP !! k = Some language →
  ∃ rest, k = dot :: rest ∧ (dot ∉ rest) ∧ is_ascii k = true.
Proof.
  intros H%elem_of_map_to_list%list_elem_of_In.
  assert (forallb (fun kv : list N * list N => extension_like kv.1)
            (map_to_list LANGUAGE_MAP) = true) as Hall by (vm_compute; reflexivity).
  rewrite forallb_forall in Hall. specialize (Hall _ H). simpl in Hall.
  unfold extension_like in Hall. destruct k as [|c rest]; [done|].
  apply andb_true_iff in Hall as [Hshape Hascii].
  apply andb_true_iff in Hshape as [Hc%bool_decide_eq_true Hrest%negb_true_iff].
  subst c. exists rest. split; [done|]. split; [|done].
  unfold contains_char in Hrest. by apply bool_decide_eq_false in Hrest.
Qed.

(** The suffix of a path is the end of its name. *)
Lemma suffix_of_name file_path : ∃ s, name file_path = s ++ suffix file_path.
Proof.
  unfold suffix. case_decide.
  - eexists. by rewrite take_drop.
  - exists (name file_path). by rewrite app_nil_r.
Qed.

(** When the scan finds nothing, the final suffix is not in the table
    either: the fallback answers [text]. *)
Lemma fallback_is_text lower file_path :
  keeps_ascii_tail lower →
  first_known (reverse (drop 1 (split dot (lower (name file_path))))) = None →
  LANGUAGE_MAP !! lower (suffix file_path) = None.
Proof.
  intros Htail Hscan.
  destruct (LANGUAGE_MAP !! lower (suffix file_path)) as [language|] eqn:Hkey; [|done].
  exfalso. destruct (language_map_keys _ _ Hkey) as (rest & Hshape & Hrest & Hascii).
  destruct (suffix_of_name file_path) as [s Hname].
  destruct (Htail s (suffix file_path) Hascii) as [s' Hlower].
  rewrite Hname, Hlower, Hshape, split_app, (split_without _ _ Hrest) in Hscan.
  pose proof (split_nonempty dot s') as Hne.
  destruct (split dot s') as [|base suffixes]; [done|].
  simpl in Hscan. rewrite drop_0, reverse_snoc in Hscan. simpl in Hscan.
  rewrite <-Hshape, Hkey in Hscan. done.
Qed.

Lemma is_ascii_drop n s : is_ascii s = true → is_ascii (drop n s) = true.
Proof.
  unfold is_ascii. rewrite !forallb_forall. intros Hs c Hc. apply Hs.
  apply list_elem_of_In. apply list_elem_of_In in Hc.
  by eapply (subseteq_drop n s).
Qed.

(** On a name that is ASCII, only the folding of ASCII matters. *)
Lemma get_file_language_ascii lower file_path :
  folds_ascii lower → is_ascii (name file_path) = true →
  get_file_language lower file_path = get_file_language ascii_lower file_path.
Proof.
  intros Hascii Hname. unfold get_file_language.
  rewrite (Hascii _ Hname).
  assert (is_ascii (suffix file_path) = true) as Hsuffix.
  { unfold suffix. case_decide; [by apply is_ascii_drop | done]. }
  by rewrite (Hascii _ Hsuffix).
Qed.

(** The lower case of the examples has the three properties. *)
Lemma demo_lower_folds_ascii : folds_ascii Demo.lower.
Proof.
  intros s. unfold is_ascii, Demo.lower, ascii_lower.
  induction s as [|c s IH]; [done|]. rewrite !fmap_cons. simpl.
  intros [Hc%N.ltb_lt Hs]%andb_true_iff. rewrite (IH Hs). f_equal.
  unfold Demo.lower_char. destruct ((65 <=? c)%N && (c <=? 90)%N); [done|].
  replace (192 <=? c)%N with false by (symmetry; apply N.leb_gt; lia).
  simpl. replace (c =? 8490)%N with false by (symmetry; apply N.eqb_neq; lia). done.
Qed.

Lemma demo_lower_char_dot c : Demo.lower_char c = dot ↔ c = dot.
Proof.
  unfold Demo.lower_char, dot. change (ch ".") with 46%N.
  destruct ((65 <=? c)%N && (c <=? 90)%N) eqn:H1.
  { apply andb_true_iff in H1 as [?%N.leb_le ?%N.leb_le]. lia. }
  destruct ((192 <=? c)%N && (c <=? 222)%N && negb (c =? 215)%N) eqn:H2.
  { apply andb_true_iff in H2 as [[?%N.leb_le ?%N.leb_le]%andb_true_iff _]. lia. }
  destruct (c =? 8490)%N eqn:H3; [|done].
  apply N.eqb_eq in H3. lia.
Qed.

Lemma demo_lower_keeps_dots : keeps_dots Demo.lower.
Proof.
  intros s. unfold Demo.lower. rewrite list_elem_of_fmap. split.
  - intros (c & Hc & Hin). symmetry in Hc.
    apply (proj1 (demo_lower_char_dot c)) in Hc. by subst.
  - intros Hin. exists dot. split; [|done]. symmetry. by apply demo_lower_char_dot.
Qed.

Lemma demo_lower_keeps_ascii_tail : keeps_ascii_tail Demo.lower.
Proof. intros s t _. exists (Demo.lower s). unfold Demo.lower. by rewrite fmap_app. Qed.

(** C4, as the code has it. A name with a dot is first put in lower case
    and then split at the dots; the suffixes after the base name are looked
    up from the rightmost to the leftmost, the first one in the table gives
    the language, and the answer is [text] when none is in the table: the
    final lookup of [Path.suffix] never finds what the scan missed. The four
    names of the specification resolve as it says. Of [str.lower()] the
    three facts named are assumed. *)
Theorem get_file_language_by_suffix (lower : list N → list N)
    (Hascii : folds_ascii lower) (Hdots : keeps_dots lower)
    (Htail : keeps_ascii_tail lower) :
  (∀ file_path, dot ∈ name file_path →
     get_file_language lower file_path = language_by_suffix (lower (name file_path)))
  ∧ get_file_language lower (Path_of (lit "config.yaml.example")) = lit "yaml"
  ∧ get_file_language lower (Path_of (lit "app.js.backup")) = lit "javascript"
  ∧ get_file_language lower (Path_of (lit "Dockerfile")) = lit "dockerfile"
  ∧ get_file_language lower (Path_of (lit "Makefile")) = lit "makefile".
Proof.
  split.
  - intros file_path Hdot. unfold get_file_language, language_by_suffix, contains_char.
    rewrite bool_decide_eq_true_2 by (by apply Hdots). simpl.
    rewrite scan_extensions_suffixes.
    destruct (first_known _) as [language|] eqn:Hscan; [done|].
    by rewrite (fallback_is_text _ _ Htail Hscan).
  - repeat split;
      (rewrite (get_file_language_ascii lower _ Hascii) by (by vm_compute));
      by vm_compute.
Qed.

(** C4 at the lower case of the examples, which folds the Kelvin sign to
    [k] as Unicode does. *)
Lemma get_file_language_by_suffix_witness :
  (∀ file_path, dot ∈ name file_path →
     get_file_language Demo.lower file_path
     = language_by_suffix (Demo.lower (name file_path)))
  ∧ get_file_language Demo.lower (Path_of (lit "config.yaml.example")) = lit "yaml"
  ∧ get_file_language Demo.lower (Path_of (lit "app.js.backup")) = lit "javascript"
  ∧ get_file_language Demo.lower (Path_of (lit "Dockerfile")) = lit "dockerfile"
  ∧ get_file_language Demo.lower (Path_of (lit "Makefile")) = lit "makefile".
Proof.
  apply (get_file_language_by_suffix Demo.lower).
  - apply demo_lower_folds_ascii.
  - apply demo_lower_keeps_dots.
  - apply demo_lower_keeps_ascii_tail.
Defined.

(** C4, as stated, fails: no suffix of [MAIN.PY] as it is written is in the
    table, so the rule applied to the name itself answers [text]; the code
    answers [python], because it folds the case before it splits. *)
Lemma uppercase_suffix_resolves :
  LANGUAGE_MAP !! lit ".PY" = None
  ∧ language_by_suffix (lit "MAIN.PY") = lit "text"
  ∧ get_file_language (str_lower Demo.env) (Path_of (lit "MAIN.PY")) = lit "python".
Proof. by vm_compute. Qed.

(** ** The order of paths *)

Section Lexicographic.

Context {A : Type} `{EqDecision A} (ltb : A → A → bool).
Context (ltb_irrefl : ∀ x, ltb x x = false).
Context (ltb_trans : ∀ x y z, ltb x y = true → ltb y z = true → ltb x z = true).
Context (ltb_total : ∀ x y, x ≠ y → ltb x y = true ∨ ltb y x = true).

Lemma lex_ltb_irrefl l : lex_ltb ltb l l = false.
Proof. induction l as [|x l IH]; simpl; [done|]. by rewrite decide_True. Qed.

Lemma lex_ltb_trans l1 l2 l3 :
  lex_ltb ltb l1 l2 = true → lex_ltb ltb l2 l3 = true → lex_ltb ltb l1 l3 = true.
Proof.
  revert l2 l3. induction l1 as [|x l1 IH]; intros [|y l2] [|z l3]; simpl; try done.
  intros H1 H2. repeat case_decide; simplify_eq; eauto.
  pose proof (ltb_trans _ _ _ H1 H2) as Hzz. by rewrite ltb_irrefl in Hzz.
Qed.

Lemma lex_ltb_total l1 l2 :
  l1 ≠ l2 → lex_ltb ltb l1 l2 = true ∨ lex_ltb ltb l2 l1 = true.
Proof.
  revert l2. induction l1 as [|x l1 IH]; intros [|y l2] Hne; simpl;
    [done | by left | by right |].
  repeat case_decide; simplify_eq; eauto.
  apply IH. congruence.
Qed.

End Lexicographic.

Lemma N_ltb_irrefl x : (x <? x)%N = false.
Proof. apply N.ltb_irrefl. Qed.
Lemma N_ltb_trans x y z : (x <? y)%N = true → (y <? z)%N = true → (x <? z)%N = true.
Proof. rewrite !N.ltb_lt. lia. Qed.
Lemma N_ltb_total x y : x ≠ y → (x <? y)%N = true ∨ (y <? x)%N = true.
Proof. rewrite !N.ltb_lt. lia. Qed.

Lemma str_ltb_irrefl s : str_ltb s s = false.
Proof. apply lex_ltb_irrefl. Qed.
Lemma str_ltb_trans s1 s2 s3 :
  str_ltb s1 s2 = true → str_ltb s2 s3 = true → str_ltb s1 s3 = true.
Proof. apply lex_ltb_trans; [apply N_ltb_irrefl | apply N_ltb_trans]. Qed.
Lemma str_ltb_total s1 s2 : s1 ≠ s2 → str_ltb s1 s2 = true ∨ str_ltb s2 s1 = true.
Proof. apply lex_ltb_total, N_ltb_total. Qed.

(** Splitting loses nothing: joining the pieces gives the string back. *)
Lemma join_split c s : join [c] (split c s) = s.
Proof.
  induction s as [|d s IH]; simpl; [done|].
  pose proof (split_nonempty c s) as Hne.
  case_decide as Hd.
  - subst d. destruct (split c s) as [|w ws]; [done|]. simpl in *. by rewrite IH.
  - destruct (split c s) as [|w [|w' ws]]; [done| |]; simpl in *.
    + by rewrite IH.
    + by rewrite <-IH.
Qed.

Section Order.

Context (v : pathlib_version).

Lemma path_lt_irrefl p : ¬ path_lt v p p.
Proof.
  unfold path_lt. by rewrite lex_ltb_irrefl.
Qed.

Lemma path_lt_trans p q r : path_lt v p q → path_lt v q r → path_lt v p r.
Proof.
  unfold path_lt. apply lex_ltb_trans; [apply str_ltb_irrefl | apply str_ltb_trans].
Qed.

Lemma path_lt_total p q : ¬ path_eq v p q → path_lt v p q ∨ path_lt v q p.
Proof.
  intros Hne. unfold path_lt. by apply lex_ltb_total; [apply str_ltb_total|].
Qed.

Lemma path_eq_not_lt p q : path_eq v p q → ¬ path_lt v p q.
Proof.
  unfold path_eq, path_lt. intros ->.
  by rewrite lex_ltb_irrefl.
Qed.

#[global] Instance path_le_total : Total (path_le v).
Proof.
  intros p q. unfold path_le. destruct (decide (path_lt v p q)) as [H|H]; [left | by right].
  intros H'. by eapply path_lt_irrefl, path_lt_trans.
Qed.

#[global] Instance path_le_trans : Transitive (path_le v).
Proof.
  intros p q r Hpq Hqr Hrp. unfold path_le in *.
  destruct (decide (path_eq v q p)) as [Heq|Hne].
  - apply Hqr. unfold path_lt in *. unfold path_eq in Heq.
    by rewrite Heq.
  - destruct (path_lt_total q p Hne) as [H|H]; [done|].
    apply Hqr. by eapply path_lt_trans.
Qed.

(** ** Sets of paths, sorted *)

Lemma path_set_lookup l k p : path_set v l !! k = Some p → k = path_key v p ∧ p ∈ l.
Proof.
  unfold path_set. intros H%elem_of_list_to_map_2.
  apply list_elem_of_fmap in H as (q & [= -> ->] & Hq). done.
Qed.

Lemma path_set_values_keys l :
  path_key v <$> (map_to_list (path_set v l)).*2 = (map_to_list (path_set v l)).*1.
Proof.
  rewrite <-list_fmap_compose. apply Forall_fmap_ext_1, Forall_forall.
  intros [k p] Hkp. apply elem_of_map_to_list in Hkp.
  apply path_set_lookup in Hkp as [-> _]. done.
Qed.

Lemma sorted_paths_perm l :
  sorted_paths v (path_set v l) ≡ₚ (map_to_list (path_set v l)).*2.
Proof. apply merge_sort_Permutation. Qed.

Lemma sorted_paths_NoDup l : NoDup (path_key v <$> sorted_paths v (path_set v l)).
Proof.
  rewrite sorted_paths_perm, path_set_values_keys. apply NoDup_fst_map_to_list.
Qed.

Lemma sorted_paths_elem_of l p : p ∈ sorted_paths v (path_set v l) → p ∈ l.
Proof.
  rewrite sorted_paths_perm. intros ([k q] & -> & Hkq)%list_elem_of_fmap.
  apply elem_of_map_to_list in Hkq. by apply path_set_lookup in Hkq as [_ ?].
Qed.

Lemma sorted_paths_represents l p :
  p ∈ l → ∃ q, q ∈ sorted_paths v (path_set v l) ∧ path_eq v p q.
Proof.
  intros Hp.
  destruct (path_set v l !! path_key v p) as [q|] eqn:Hq.
  - exists q. split.
    + rewrite sorted_paths_perm. apply list_elem_of_fmap.
      exists (path_key v p, q). split; [done|]. by apply elem_of_map_to_list.
    + by apply path_set_lookup in Hq as [? _].
  - exfalso. unfold path_set in Hq. apply not_elem_of_list_to_map in Hq.
    apply Hq. rewrite <-list_fmap_compose. apply list_elem_of_fmap. by exists p.
Qed.

Lemma strictly_sorted l :
  StronglySorted (path_le v) l → NoDup (path_key v <$> l) → StronglySorted (path_lt v) l.
Proof.
  induction 1 as [|p l Hl IH Hp]; intros Hnd; [constructor|].
  rewrite fmap_cons in Hnd. apply NoDup_cons in Hnd as [Hnotin Hnd].
  constructor; [by apply IH|].
  apply Forall_forall. intros q Hq. rewrite Forall_forall in Hp.
  destruct (decide (path_eq v p q)) as [Heq|Hne].
  - exfalso. apply Hnotin. unfold path_eq in Heq. rewrite Heq.
    apply list_elem_of_fmap. by exists q.
  - destruct (path_lt_total p q Hne) as [H|H]; [done|]. by apply Hp in Hq.
Qed.

Lemma sorted_paths_sorted l : StronglySorted (path_lt v) (sorted_paths v (path_set v l)).
Proof.
  apply strictly_sorted; [|apply sorted_paths_NoDup].
  apply (StronglySorted_merge_sort (path_le v)).
Qed.

Lemma filter_path_eq_nil (l : list Path) p :
  path_key v p ∉ path_key v <$> l → filter (path_eq v p) l = [].
Proof.
  induction l as [|x l IH]; [done|].
  rewrite fmap_cons, not_elem_of_cons. intros [Hne Hnotin].
  rewrite filter_cons, decide_False by done. by apply IH.
Qed.

(** In a list without two equal paths, a path that is there is there once. *)
Lemma occurs_once (l : list Path) p q :
  NoDup (path_key v <$> l) → q ∈ l → path_eq v p q →
  length (filter (path_eq v p) l) = 1.
Proof.
  unfold path_eq at 1.
  induction l as [|x l IH]; intros Hnd Hq Heq; [by apply elem_of_nil in Hq|].
  rewrite fmap_cons in Hnd. apply NoDup_cons in Hnd as [Hnotin Hnd].
  rewrite filter_cons. apply elem_of_cons in Hq as [->|Hq].
  - rewrite decide_True by done. rewrite filter_path_eq_nil; [done|]. by rewrite Heq.
  - rewrite decide_False; [by apply IH|].
    unfold path_eq. intros Hx. apply Hnotin. rewrite <-Hx, Heq.
    apply list_elem_of_fmap. by exists q.
Qed.

End Order.

(** ** Collecting the files *)

Section Collect.

Context (env : Env).

(** A loop whose body appends what it finds appends all that is found,
    unless the body raises for one of the items. *)
Lemma for_each_appends {A} (body : list Path → A → M (list Path))
    (fails : list N → A → bool) (found : list N → A → list Path) :
  (∀ acc x w, outcome_is (body acc x w) w (fails (cwd w) x) (acc ++ found (cwd w) x)) →
  ∀ l acc w,
    outcome_is (for_each l body acc w) w (existsb (fails (cwd w)) l)
      (acc ++ (l ≫= found (cwd w))).
Proof.
  intros Hbody. induction l as [|x l IH]; intros acc w; simpl.
  - split; [apply extends_refl|]. by rewrite app_nil_r.
  - destruct (Hbody acc x w) as [Hext1 Hrun]. unfold bind.
    destruct (body acc x w) as [[acc'|e] w1] eqn:Hx; simpl in *.
    + destruct (fails (cwd w) x); [by destruct Hrun as (? & ? & _)|].
      injection Hrun as ->. simpl.
      destruct (IH (acc ++ found (cwd w) x) w1) as [Hext2 Hrest].
      destruct Hext1 as [Hcwd Hevs]. rewrite Hcwd in Hrest.
      split; [eapply extends_trans; [by split | exact Hext2]|].
      by rewrite <-app_assoc in Hrest.
    + destruct (fails (cwd w) x); [|done]. simpl. by split.
Qed.

Lemma collect_if_small_eq acc p w :
  ∃ w', collect_if_small env acc p w
        = (Ok (acc ++ if small_enough env (cwd w) p then [p] else []), w')
        ∧ extends w w'.
Proof.
  unfold collect_if_small, small_enough, try_except, bind, path_stat_size, log, emit, ret.
  simpl. destruct (fs_stat_size env (cwd w) p) as [msg|size]; simpl.
  - eexists. rewrite app_nil_r. split; [done | solve_extends].
  - destruct (1024 * 1024 <? size)%Z; simpl; eexists;
      rewrite ?app_nil_r; (split; [done | solve_extends]).
Qed.

Lemma collect_walked_eq pats acc p w :
  outcome_is (collect_walked env pats acc p w) w (raises (fs_is_file env (cwd w) p))
    (acc ++ walked_file env (cwd w) pats p).
Proof.
  unfold collect_walked, walked_file, bind, path_is_file.
  destruct (fs_is_file env (cwd w) p) as [msg|is_file]; simpl.
  { split; [solve_extends | by eauto]. }
  destruct (is_file && negb (should_ignore_file p pats)); simpl.
  - destruct (collect_if_small_eq acc p (record_event (EvFs OpIsFile p) w))
      as (w' & Hrun & Hext).
    rewrite Hrun. split; [|done]. eapply extends_trans; [|exact Hext]. solve_extends.
  - unfold ret. rewrite app_nil_r. split; [solve_extends | done].
Qed.

Lemma collect_directory_eq pats acc directory w :
  outcome_is (collect_directory env pats acc directory w) w
    (walk_fails env (cwd w) directory) (acc ++ walked_files env (cwd w) pats directory).
Proof.
  unfold collect_directory, walked_files, walk_fails, bind, path_exists, path_is_dir,
    path_rglob.
  destruct (fs_exists env (cwd w) (Path_of directory)) as [msg|[|]]; simpl.
  { split; [solve_extends | by eauto]. }
  2: { unfold log, emit, ret. simpl. rewrite app_nil_r. split; [solve_extends | done]. }
  destruct (fs_is_dir env (cwd w) (Path_of directory)) as [msg|[|]]; simpl.
  { split; [solve_extends | by eauto]. }
  2: { unfold log, emit, ret. simpl. rewrite app_nil_r. split; [solve_extends | done]. }
  set (walk := fs_rglob env (cwd w) (Path_of directory)).
  set (w0 := record_event (EvFs OpRglob (Path_of directory))
               (record_event (EvFs OpIsDir (Path_of directory))
                  (record_event (EvFs OpExists (Path_of directory)) w))).
  pose proof (for_each_appends (collect_walked env pats)
                (fun d p => raises (fs_is_file env d p)) (fun d => walked_file env d pats)
                (collect_walked_eq pats) walk.1 acc w0) as [Hext Hrun].
  change (cwd w0) with (cwd w) in Hrun.
  assert (extends w w0) as Hw0 by (subst w0; solve_extends).
  destruct (for_each walk.1 (collect_walked env pats) acc w0) as [[acc'|e] w1];
    simpl in *.
  - destruct (existsb _ walk.1); [by destruct Hrun as (? & ? & _)|].
    injection Hrun as ->. simpl.
    destruct walk.2 as [msg|]; simpl.
    + split; [by eapply extends_trans | by eauto].
    + split; [by eapply extends_trans | done].
  - destruct (existsb _ walk.1); [|done]. simpl.
    split; [by eapply extends_trans | done].
Qed.

Lemma collect_file_eq pats acc file_str w :
  outcome_is (collect_file env pats acc file_str w) w
    (listing_fails env (cwd w) file_str) (acc ++ explicit_file env (cwd w) pats file_str).
Proof.
  unfold collect_file, explicit_file, listing_fails, bind, path_exists, path_is_file.
  destruct (fs_exists env (cwd w) (Path_of file_str)) as [msg|[|]]; simpl.
  { split; [solve_extends | by eauto]. }
  2: { unfold log, emit, ret. simpl. rewrite app_nil_r. split; [solve_extends | done]. }
  destruct (fs_is_file env (cwd w) (Path_of file_str)) as [msg|[|]]; simpl.
  { split; [solve_extends | by eauto]. }
  2: { unfold log, emit, ret. simpl. rewrite app_nil_r. split; [solve_extends | done]. }
  destruct (should_ignore_file (Path_of file_str) pats); simpl.
  { unfold log, emit, ret. simpl. rewrite app_nil_r. split; [solve_extends | done]. }
  match goal with |- context [collect_if_small env acc ?p ?w0] =>
    destruct (collect_if_small_eq acc p w0) as (w' & Hrun & Hext)
  end.
  rewrite Hrun. split; [|done]. eapply extends_trans; [|exact Hext]. solve_extends.
Qed.

Lemma truthy_default {A} (l : option (list A)) : truthy l = false → default [] l = [].
Proof. by destruct l as [[|]|]. Qed.

(** The list returned is the sorted set of what was gathered, unless one
    of the tests or walks raises. *)
Lemma collect_files_eq directories files ignore_patterns w :
  outcome_is (collect_files env directories files ignore_patterns w) w
    (collect_fails env (cwd w) directories files)
    (sorted_paths (pathlib env)
       (path_set (pathlib env) (gathered env (cwd w) directories files ignore_patterns))).
Proof.
  unfold collect_files, gathered, collect_fails.
  set (pats := default DEFAULT_IGNORE_PATTERNS ignore_patterns).
  set (from_dirs := default [] directories ≫= walked_files env (cwd w) pats).
  set (walks := if truthy directories
                then for_each (default [] directories) (collect_directory env pats) []
                else ret []).
  assert (outcome_is (walks w) w
            (existsb (walk_fails env (cwd w)) (default [] directories)) from_dirs)
    as [Hext1 Hdirs].
  { subst walks from_dirs. destruct (truthy directories) eqn:Hd.
    - apply (for_each_appends (collect_directory env pats) (walk_fails env)
               (fun d => walked_files env d pats) (collect_directory_eq pats)).
    - rewrite (truthy_default _ Hd). split; [apply extends_refl | done]. }
  unfold bind at 1.
  destruct (walks w) as [[collected|e] w1]; simpl in *.
  2: { destruct (existsb _ (default [] directories)); [|done]. simpl. by split. }
  destruct (existsb _ (default [] directories)); [by destruct Hdirs as (? & ? & _)|].
  injection Hdirs as ->. simpl.
  set (listings := if truthy files
                   then for_each (default [] files) (collect_file env pats) from_dirs
                   else ret from_dirs).
  assert (outcome_is (listings w1) w1
            (existsb (listing_fails env (cwd w1)) (default [] files))
            (from_dirs ++ (default [] files ≫= explicit_file env (cwd w1) pats)))
    as [Hext2 Hfiles].
  { subst listings. destruct (truthy files) eqn:Hf.
    - apply (for_each_appends (collect_file env pats) (listing_fails env)
               (fun d => explicit_file env d pats) (collect_file_eq pats)).
    - rewrite (truthy_default _ Hf). simpl. rewrite app_nil_r.
      split; [apply extends_refl | done]. }
  destruct Hext1 as [Hcwd1 Hevs1]. rewrite Hcwd1 in Hfiles.
  unfold bind.
  destruct (listings w1) as [[collected|e] w2]; simpl in *.
  - destruct (existsb _ (default [] files)); [by destruct Hfiles as (? & ? & _)|].
    injection Hfiles as ->.
    split; [|done]. eapply extends_trans; [by split | exact Hext2].
  - destruct (existsb _ (default [] files)); [|done].
    split; [|done]. eapply extends_trans; [by split | exact Hext2].
Qed.

(** What is returned, when a list is returned. *)
Lemma collect_files_returns directories files ignore_patterns w result w' :
  collect_files env directories files ignore_patterns w = (Ok result, w') →
  collect_fails env (cwd w) directories files = false
  ∧ result = sorted_paths (pathlib env)
               (path_set (pathlib env)
                  (gathered env (cwd w) directories files ignore_patterns)).
Proof.
  intros Hrun.
  destruct (collect_files_eq directories files ignore_patterns w) as [_ Hcase].
  rewrite Hrun in Hcase. simpl in Hcase.
  destruct (collect_fails env (cwd w) directories files).
  - by destruct Hcase as (? & ? & _).
  - by injection Hcase as ->.
Qed.

End Collect.

(** C10, at an input where the code departs from it. No directory has the
    name made of 300 times the letter x: [exists()], which the code calls
    outside any [try], does not answer [False] for it but raises the
    [OSError] of a name that is too long, and so does [collect_files]; the
    directory of the test suite, which is merely missing, is skipped. *)
Theorem overlong_directory_raises :
  let directory := replicate 300 (ch "x") in
  Demo.is_dir (lit "/w") (Path_of directory) = false
  ∧ Demo.is_file (lit "/w") (Path_of directory) = false
  ∧ fs_exists Demo.env (lit "/w") (Path_of directory)
    = inl (lit "[Errno 36] File name too long")
  ∧ (collect_files Demo.env (Some [directory]) None None Demo.start).1
    = Raise (mkExn OSError (lit "[Errno 36] File name too long"))
  ∧ (collect_files Demo.env (Some [lit "/nonexistent/directory"]) None None Demo.start).1
    = Ok [].
Proof. vm_compute. done. Qed.

(** C6, as the code has it. When the collector returns a list, the list
    is in strictly ascending path order, so no two of its paths are equal;
    every path in it was gathered from a directory walk or from the explicit
    files; and every gathered path is in it exactly once, however many times
    it was gathered. Paths are compared as the [pathlib] in use compares
    them, by what is written and not by the file denoted. *)
Theorem collect_files_sorted_union (env : Env)
    (directories files ignore_patterns : option (list (list N))) (w w' : world)
    (result : list Path)
    (Hreturns : collect_files env directories files ignore_patterns w = (Ok result, w')) :
  StronglySorted (path_lt (pathlib env)) result
  ∧ NoDup (path_key (pathlib env) <$> result)
  ∧ (∀ p, p ∈ result → p ∈ gathered env (cwd w) directories files ignore_patterns)
  ∧ (∀ p, p ∈ gathered env (cwd w) directories files ignore_patterns →
       length (filter (path_eq (pathlib env) p) result) = 1).
Proof.
  apply collect_files_returns in Hreturns as [_ ->].
  split; [apply sorted_paths_sorted|].
  split; [apply sorted_paths_NoDup|].
  split; [apply sorted_paths_elem_of|].
  intros p Hp. destruct (sorted_paths_represents (pathlib env) _ p Hp) as (q & Hq & Heq).
  eapply occurs_once; [apply sorted_paths_NoDup | exact Hq | exact Heq].
Qed.

(** C6 at a walk of two directories and three listed files, of which one
    was met by a walk and one is missing. *)
Lemma collect_files_sorted_union_witness :
  let directories := Some [lit "src"; lit "."] in
  let files := Some [lit "./src/main.py"; lit "README.md"; lit "missing.txt"] in
  let result := Path_of ∘ lit <$> ["README.md"; "blob.bin"; "data.json"; "latin.txt";
                                   "notes.md"; "src/main.py"]%string in
  StronglySorted (path_lt (pathlib Demo.env)) result
  ∧ NoDup (path_key (pathlib Demo.env) <$> result)
  ∧ (∀ p, p ∈ result → p ∈ gathered Demo.env (cwd Demo.start) directories files None)
  ∧ (∀ p, p ∈ gathered Demo.env (cwd Demo.start) directories files None →
       length (filter (path_eq (pathlib Demo.env) p) result) = 1).
Proof.
  apply (collect_files_sorted_union Demo.env (Some [lit "src"; lit "."])
           (Some [lit "./src/main.py"; lit "README.md"; lit "missing.txt"]) None
           Demo.start
           (collect_files Demo.env (Some [lit "src"; lit "."])
              (Some [lit "./src/main.py"; lit "README.md"; lit "missing.txt"]) None
              Demo.start).2).
  vm_compute. reflexivity.
Defined.

(** C6, as stated, fails: the walk of [src] gives [src/main.py] and the
    listing gives [/w/src/main.py]; both are the one file [/w/src/main.py],
    reachable by a walk and by a listing, and it is returned twice, under
    either [pathlib]. *)
Lemma same_file_collected_twice :
  let walked := Path_of (lit "src/main.py") in
  let listed := Path_of (lit "/w/src/main.py") in
  Demo.absolute (lit "/w") walked = Demo.absolute (lit "/w") listed
  ∧ walked ∈ walked_files Demo.env (lit "/w") DEFAULT_IGNORE_PATTERNS (lit "src")
  ∧ listed ∈ explicit_file Demo.env (lit "/w") DEFAULT_IGNORE_PATTERNS (lit "/w/src/main.py")
  ∧ (collect_files Demo.env (Some [lit "src"]) (Some [lit "/w/src/main.py"]) None
       Demo.start).1 = Ok [listed; walked]
  ∧ (collect_files Demo.env311 (Some [lit "src"]) (Some [lit "/w/src/main.py"]) None
       Demo.start).1 = Ok [listed; walked].
Proof.
  repeat split; try (by vm_compute).
  - apply (bool_decide_eq_true_1
             (Path_of (lit "src/main.py")
              ∈ walked_files Demo.env (lit "/w") DEFAULT_IGNORE_PATTERNS (lit "src"))).
    vm_compute. reflexivity.
  - apply (bool_decide_eq_true_1
             (Path_of (lit "/w/src/main.py")
              ∈ explicit_file Demo.env (lit "/w") DEFAULT_IGNORE_PATTERNS
                  (lit "/w/src/main.py"))).
    vm_compute. reflexivity.
Qed.

(** A file met by the walk of [src] and listed again under the same name is
    collected once. *)
Example collect_files_merges :
  (collect_files Demo.env (Some [lit "src"; lit "."])
     (Some [lit "./src/main.py"; lit "README.md"; lit "missing.txt"]) None Demo.start).1
  = Ok (Path_of ∘ lit <$> ["README.md"; "blob.bin"; "data.json"; "latin.txt";
                           "notes.md"; "src/main.py"]%string).
Proof. vm_compute. done. Qed.

(** * Further properties *)

(** ** Fences and backticks *)

(** X1. The fence chosen for markdown content is not empty and occurs
    nowhere inside the content, so no line of the content can close the
    block. *)
Theorem markdown_fence_not_in_content (file_content : list N) :
  ∃ fence,
    code_block (lit "markdown") file_content
    = [fence ++ lit "markdown"; file_content; fence; []]
    ∧ fence ≠ []
    ∧ ¬ occurs_in fence file_content.
Proof.
  exists (replicate (count_max_backticks file_content + 1) backtick).
  split; [done|]. split.
  - rewrite Nat.add_1_r. done.
  - intros Hocc.
    destruct (count_max_backticks_longest_run file_content) as [_ Hmax].
    specialize (Hmax _ Hocc). lia.
Qed.

(** X2. The count is zero exactly when the content has no backtick, and it
    never exceeds the length of the content. *)
Theorem count_max_backticks_zero_iff (content : list N) :
  (count_max_backticks content = 0 ↔ backtick ∉ content)
  ∧ count_max_backticks content ≤ length content.
Proof.
  destruct (count_max_backticks_longest_run content) as [(b & a & Hrun) Hmax].
  split; [split|].
  - intros Hzero Hin. apply list_elem_of_split in Hin as (l1 & l2 & ->).
    assert (has_run 1 (l1 ++ backtick :: l2)) as H1 by (by exists l1, l2).
    apply Hmax in H1. lia.
  - intros Hnotin. destruct (count_max_backticks content) as [|n]; [done|].
    exfalso. apply Hnotin. rewrite Hrun. simpl.
    apply elem_of_app. right. by left.
  - rewrite Hrun at 2. rewrite !length_app, length_replicate. lia.
Qed.

(** ** More on the ignore rules *)

(** X3. The patterns of two lists put together ignore a path exactly when
    one of the lists does: adding patterns never brings a file back. *)
Theorem should_ignore_file_app (file_path : Path) (patterns more : list (list N)) :
  should_ignore_file file_path (patterns ++ more)
  = should_ignore_file file_path patterns || should_ignore_file file_path more.
Proof.
  induction patterns as [|pattern patterns IH]; [done|].
  simpl. rewrite IH.
  destruct (bool_decide _); [done|].
  destruct (_ && _); [done|].
  by destruct (bool_decide _).
Qed.

(** X4. When a pattern names a component of a path, every path below it
    is ignored as well: a directory that is ignored is ignored with all it
    contains. *)
Theorem ignored_with_all_below (file_path : Path) (ignore_patterns : list (list N))
    (pattern : list N) (children : list (list N))
    (Hpattern : pattern ∈ ignore_patterns)
    (Hcomponent : pattern ∈ parts file_path) :
  should_ignore_file (descend file_path children) ignore_patterns = true.
Proof.
  apply should_ignore_file_iff. exists pattern. split; [done|].
  right; right. unfold parts, descend in *. simpl.
  destruct (p_root file_path).
  - apply elem_of_app. by left.
  - apply elem_of_cons in Hcomponent as [->|Hin]; [by left | right].
    apply elem_of_app. by left.
Qed.

(** X4 at a file three levels below [node_modules], with the default
    patterns. *)
Lemma ignored_with_all_below_witness :
  should_ignore_file
    (descend (Path_of (lit "web/node_modules")) [lit "pkg"; lit "lib"; lit "index.js"])
    DEFAULT_IGNORE_PATTERNS = true.
Proof.
  apply (ignored_with_all_below (Path_of (lit "web/node_modules"))
           DEFAULT_IGNORE_PATTERNS (lit "node_modules")).
  - apply (bool_decide_eq_true_1 (lit "node_modules" ∈ DEFAULT_IGNORE_PATTERNS)).
    vm_compute. reflexivity.
  - apply (bool_decide_eq_true_1
             (lit "node_modules" ∈ parts (Path_of (lit "web/node_modules")))).
    vm_compute. reflexivity.
Defined.

(** ** More on the language *)

(** The whole of [get_file_language] reads the lower-cased base name and
    nothing else. *)
Lemma get_file_language_of_filename lower file_path :
  keeps_ascii_tail lower →
  get_file_language lower file_path = language_of_filename (lower (name file_path)).
Proof.
  intros Htail. unfold get_file_language, language_of_filename, language_by_suffix.
  destruct (contains_char dot (lower (name file_path))); simpl; [|done].
  rewrite scan_extensions_suffixes.
  destruct (first_known _) as [language|] eqn:Hscan; [done|].
  by rewrite (fallback_is_text _ _ Htail Hscan).
Qed.

(** X5. The language of a file depends on its base name only, and not on
    the case of its letters: the directories of the path play no part, and
    two names that agree once lower-cased resolve alike, whatever
    [str.lower()] makes of them. Of [str.lower()] it is assumed that the
    lower case of a text ends with the lower case of its end when that is
    ASCII. *)
Theorem language_depends_on_lowercase_name (lower : list N → list N)
    (file_path other : Path)
    (Htail : keeps_ascii_tail lower)
    (Hnames : lower (name file_path) = lower (name other)) :
  get_file_language lower file_path = get_file_language lower other.
Proof. by rewrite !get_file_language_of_filename, Hnames. Qed.

(** X5 at [src/É.PY] and [docs/old/é.py]. *)
Lemma language_depends_on_lowercase_name_witness :
  get_file_language Demo.lower (Path_of (lit "src/" ++ [201%N] ++ lit ".PY"))
  = get_file_language Demo.lower (Path_of (lit "docs/old/" ++ [233%N] ++ lit ".py")).
Proof.
  apply (language_depends_on_lowercase_name Demo.lower
           (Path_of (lit "src/" ++ [201%N] ++ lit ".PY"))
           (Path_of (lit "docs/old/" ++ [233%N] ++ lit ".py"))).
  - apply demo_lower_keeps_ascii_tail.
  - vm_compute. reflexivity.
Defined.

Lemma language_map_values k language :
  LANGUAGE_MAP !! k = Some language → lowercase_word language = true.
Proof.
  intros H%elem_of_map_to_list%list_elem_of_In.
  assert (forallb (fun kv : list N * list N => lowercase_word kv.2)
            (map_to_list LANGUAGE_MAP) = true) as Hall by (vm_compute; reflexivity).
  rewrite forallb_forall in Hall. apply (Hall _ H).
Qed.

Lemma first_known_in_table suffixes language :
  first_known suffixes = Some language → ∃ k, LANGUAGE_MAP !! k = Some language.
Proof.
  induction suffixes as [|s suffixes IH]; simpl; [done|].
  destruct (LANGUAGE_MAP !! (dot :: s)) as [l|] eqn:Hl; [|done].
  intros [= <-]. by eauto.
Qed.

(** X6. Whatever the file, its language tag is a non-empty word of
    lower-case ASCII letters: it has no backtick, no space and no line break,
    so the line that opens the fence is well formed. *)
Theorem language_is_lowercase_word (lower : list N → list N) (file_path : Path) :
  lowercase_word (get_file_language lower file_path) = true.
Proof.
  unfold get_file_language.
  destruct (contains_char dot (lower (name file_path))); cbn [negb].
  - cbv zeta. rewrite scan_extensions_suffixes.
    destruct (first_known _) as [language|] eqn:Hscan.
    + apply first_known_in_table in Hscan as [k Hk]. by eapply language_map_values.
    + destruct (LANGUAGE_MAP !! lower (suffix file_path)) as [language|] eqn:Hkey; simpl;
        [by eapply language_map_values | by vm_compute].
  - destruct (bool_decide_reflect
                (lower (name file_path)
                 ∈ lit <$> ["dockerfile"; "makefile"; "rakefile"; "gemfile"]%string))
      as [Hin|_].
    + rewrite !fmap_cons, fmap_nil in Hin.
      repeat (apply elem_of_cons in Hin as [->|Hin]; [by vm_compute|]).
      by apply elem_of_nil in Hin.
    + by destruct (startswith _ _); vm_compute.
Qed.

(** ** What a computation records *)

Lemma adds_refl P w : adds P w w.
Proof. exists []. by rewrite app_nil_r. Qed.

Lemma adds_trans P w1 w2 w3 : adds P w1 w2 → adds P w2 w3 → adds P w1 w3.
Proof.
  intros (e1 & H1 & Hf1) (e2 & H2 & Hf2). exists (e1 ++ e2).
  rewrite H2, H1, app_assoc. split; [done | by apply Forall_app].
Qed.

Lemma adds_record P e w w' : adds P w w' → P e → adds P w (record_event e w').
Proof.
  intros (evs & Ht & Hf) He. exists (evs ++ [e]). simpl.
  rewrite Ht, app_assoc. split; [done|]. apply Forall_app. split; [done|].
  by constructor.
Qed.

Lemma adds_weaken (P Q : event → Prop) w w' :
  (∀ e, P e → Q e) → adds P w w' → adds Q w w'.
Proof.
  intros HPQ (evs & Ht & Hf). exists evs. split; [done|].
  eapply Forall_impl; [exact Hf | done].
Qed.

Section Emits.

Context (env : Env) (P : event → Prop).

Lemma emits_only_ret {A} (a : A) : emits_only P (ret a).
Proof. intros w. apply adds_refl. Qed.

Lemma emits_only_raise {A} e : emits_only P (@raise A e).
Proof. intros w. apply adds_refl. Qed.

Lemma emits_only_bind {A B} (c : M A) (k : A → M B) :
  emits_only P c → (∀ a, emits_only P (k a)) → emits_only P (bind c k).
Proof.
  intros Hc Hk w. unfold bind. specialize (Hc w).
  destruct (c w) as [[a|e] w']; [|done].
  eapply adds_trans; [exact Hc | apply Hk].
Qed.

Lemma emits_only_try_except_1 {A} (c : M A) accepts (h : exn → M A) :
  emits_only P c → (∀ e, emits_only P (h e)) →
  emits_only P (try_except c [(accepts, h)]).
Proof.
  intros Hc Hh w. unfold try_except. specialize (Hc w).
  destruct (c w) as [[a|e] w']; [done|]. simpl.
  destruct (accepts e); [|done].
  eapply adds_trans; [exact Hc | apply Hh].
Qed.

Lemma emits_only_try_finally {A} (c : M A) (fin : M unit) :
  emits_only P c → emits_only P fin → emits_only P (try_finally c fin).
Proof.
  intros Hc Hf w. unfold try_finally. specialize (Hc w).
  destruct (c w) as [r w']. specialize (Hf w').
  destruct (fin w') as [[[]|e] w'']; simpl in *; by eapply adds_trans.
Qed.

Lemma emits_only_for_each {A S} (l : list A) (body : S → A → M S) s :
  (∀ s x, emits_only P (body s x)) → emits_only P (for_each l body s).
Proof.
  intros Hb. revert s. induction l as [|x l IH]; intros s; simpl.
  - apply emits_only_ret.
  - apply emits_only_bind; [apply Hb | done].
Qed.

Lemma emits_only_log r : P (EvLog r) → emits_only P (log r).
Proof. intros HP w. apply adds_record; [apply adds_refl | done]. Qed.

Lemma emits_only_path_exists p : P (EvFs OpExists p) → emits_only P (path_exists env p).
Proof. intros HP w. apply adds_record; [apply adds_refl | done]. Qed.
Lemma emits_only_path_is_dir p : P (EvFs OpIsDir p) → emits_only P (path_is_dir env p).
Proof. intros HP w. apply adds_record; [apply adds_refl | done]. Qed.
Lemma emits_only_path_is_file p : P (EvFs OpIsFile p) → emits_only P (path_is_file env p).
Proof. intros HP w. apply adds_record; [apply adds_refl | done]. Qed.
Lemma emits_only_path_rglob p : P (EvFs OpRglob p) → emits_only P (path_rglob env p).
Proof. intros HP w. apply adds_record; [apply adds_refl | done]. Qed.
Lemma emits_only_path_stat_size p : P (EvFs OpStat p) → emits_only P (path_stat_size env p).
Proof. intros HP w. apply adds_record; [apply adds_refl | done]. Qed.
Lemma emits_only_path_mkdir p : P (EvFs OpMkdir p) → emits_only P (path_mkdir env p).
Proof. intros HP w. apply adds_record; [apply adds_refl | done]. Qed.
Lemma emits_only_write_text p text : P (EvWrite p text) → emits_only P (write_text env p text).
Proof. intros HP w. apply adds_record; [apply adds_refl | done]. Qed.
Lemma emits_only_read_text p enc : P (EvFs OpRead p) → emits_only P (read_text env p enc).
Proof. intros HP w. apply adds_record; [apply adds_refl | done]. Qed.
Lemma emits_only_prompt text models :
  P (EvPrompt text models) → emits_only P (prompt env text models).
Proof. intros HP w. apply adds_record; [apply adds_refl | done]. Qed.
Lemma emits_only_os_getcwd : P EvGetcwd → emits_only P (os_getcwd env).
Proof. intros HP w. apply adds_record; [apply adds_refl | done]. Qed.
Lemma emits_only_os_chdir d : P (EvChdir d) → emits_only P (os_chdir env d).
Proof.
  intros HP w. unfold os_chdir. destruct (os_chdir_to env (cwd w) d); simpl.
  - apply adds_record; [apply adds_refl | done].
  - exists [EvChdir d]. split; [done | by constructor].
Qed.

End Emits.

(** Splits a composed computation and leaves the membership of each
    recorded event in the set of events. *)
Ltac emits_step :=
  first
    [ apply emits_only_ret | apply emits_only_raise
    | apply emits_only_log | apply emits_only_path_exists | apply emits_only_path_is_dir
    | apply emits_only_path_is_file | apply emits_only_path_rglob
    | apply emits_only_path_stat_size | apply emits_only_path_mkdir
    | apply emits_only_write_text | apply emits_only_read_text | apply emits_only_prompt
    | apply emits_only_os_getcwd | apply emits_only_os_chdir
    | apply emits_only_bind; [|intros ?]
    | apply emits_only_for_each; intros ? ?
    | apply emits_only_try_except_1; [|intros ?]
    | apply emits_only_try_finally
    | match goal with
      | |- emits_only _ (if ?b then _ else _) => destruct b
      | |- emits_only _ (match ?x with _ => _ end) => destruct x
      end ].

Lemma collect_files_reads_only env directories files ignore_patterns :
  emits_only is_read (collect_files env directories files ignore_patterns).
Proof.
  unfold collect_files, collect_directory, collect_file, collect_walked, collect_if_small.
  repeat emits_step; exact I.
Qed.

(** ** More on collecting *)

(** X7. Collecting only looks: whether it returns or raises, it leaves the
    working directory where it was and records nothing but queries of the
    file system and log records; no file is written, no directory made, no
    prompt sent. It returns a list unless a test made outside any [try]
    ([exists()], [is_dir()], [is_file()]) raises or a walk ends with an
    error, and then it raises an [OSError]. *)
Theorem collect_files_only_looks (env : Env)
    (directories files ignore_patterns : option (list (list N))) (w : world) :
  let run := collect_files env directories files ignore_patterns w in
  cwd run.2 = cwd w
  ∧ adds is_read w run.2
  ∧ if collect_fails env (cwd w) directories files
    then ∃ e, run.1 = Raise e ∧ exn_kind e = OSError
    else ∃ result, run.1 = Ok result.
Proof.
  intros run. subst run.
  destruct (collect_files_eq env directories files ignore_patterns w)
    as [[Hcwd _] Hcase].
  split; [done|]. split; [apply collect_files_reads_only|].
  destruct (collect_fails env (cwd w) directories files); [done | by eauto].
Qed.

Lemma small_enough_size env d p :
  small_enough env d p = true →
  ∃ size, fs_stat_size env d p = inr size ∧ (size ≤ 1024 * 1024)%Z.
Proof.
  unfold small_enough. destruct (fs_stat_size env d p) as [msg|size]; [done|].
  intros H%negb_true_iff%Z.ltb_ge. by eauto.
Qed.

Lemma holds_true a : holds a = true → a = inr true.
Proof. by destruct a as [msg|[|]]. Qed.

Lemma gathered_pass env d directories files ignore_patterns p :
  p ∈ gathered env d directories files ignore_patterns →
  fs_is_file env d p = inr true
  ∧ should_ignore_file p (default DEFAULT_IGNORE_PATTERNS ignore_patterns) = false
  ∧ small_enough env d p = true.
Proof.
  unfold gathered. set (pats := default DEFAULT_IGNORE_PATTERNS ignore_patterns).
  intros [Hin|Hin]%elem_of_app.
  - apply list_elem_of_bind in Hin as (directory & Hin & _).
    unfold walked_files in Hin. destruct (_ && _) in Hin; [|by apply elem_of_nil in Hin].
    apply list_elem_of_bind in Hin as (q & Hin & _).
    unfold walked_file in Hin. destruct (_ && _ && _) eqn:Hq in Hin;
      [|by apply elem_of_nil in Hin].
    apply list_elem_of_singleton in Hin as ->.
    apply andb_true_iff in Hq as [[?%holds_true ?%negb_true_iff]%andb_true_iff ?]. done.
  - apply list_elem_of_bind in Hin as (file_str & Hin & _).
    unfold explicit_file in Hin. destruct (_ && _ && _ && _) eqn:Hq in Hin;
      [|by apply elem_of_nil in Hin].
    apply list_elem_of_singleton in Hin as ->.
    apply andb_true_iff in Hq
      as [[[? ?%holds_true]%andb_true_iff ?%negb_true_iff]%andb_true_iff ?].
    done.
Qed.

(** X8. Every path of a list returned by the collector is a regular file,
    is not ignored by the patterns in force (the defaults when none are
    given), and has a size that could be read and is at most 1 MiB. *)
Theorem collected_files_pass_the_filters (env : Env)
    (directories files ignore_patterns : option (list (list N))) (w w' : world)
    (result : list Path)
    (Hreturns : collect_files env directories files ignore_patterns w = (Ok result, w')) :
  Forall (fun p =>
            fs_is_file env (cwd w) p = inr true
            ∧ should_ignore_file p (default DEFAULT_IGNORE_PATTERNS ignore_patterns) = false
            ∧ ∃ size, fs_stat_size env (cwd w) p = inr size ∧ (size ≤ 1024 * 1024)%Z)
    result.
Proof.
  apply collect_files_returns in Hreturns as [_ ->]. apply Forall_forall.
  intros p Hp%sorted_paths_elem_of%gathered_pass. destruct Hp as (? & ? & Hsmall).
  split; [done|]. split; [done|]. by apply small_enough_size.
Qed.

(** X8 at the walk of the demo directory. *)
Lemma collected_files_pass_the_filters_witness :
  Forall (fun p =>
            fs_is_file Demo.env (cwd Demo.start) p = inr true
            ∧ should_ignore_file p (default DEFAULT_IGNORE_PATTERNS None) = false
            ∧ ∃ size, fs_stat_size Demo.env (cwd Demo.start) p = inr size
                      ∧ (size ≤ 1024 * 1024)%Z)
    (Path_of ∘ lit <$> ["README.md"; "blob.bin"; "data.json"; "latin.txt";
                        "notes.md"; "src/main.py"]%string).
Proof.
  apply (collected_files_pass_the_filters Demo.env (Some [lit "."]) None None Demo.start
           (collect_files Demo.env (Some [lit "."]) None None Demo.start).2).
  vm_compute. reflexivity.
Defined.

(** X9. With neither directories nor files (each left out or empty) the
    collector returns the empty list at once: it does not look at the file
    system and logs nothing. *)
Theorem collect_files_no_input (env : Env)
    (directories files ignore_patterns : option (list (list N))) (w : world)
    (Hdirectories : empty_or_absent directories)
    (Hfiles : empty_or_absent files) :
  collect_files env directories files ignore_patterns w = (Ok [], w).
Proof.
  apply truthy_false_iff in Hdirectories, Hfiles.
  unfold collect_files. rewrite Hdirectories, Hfiles.
  unfold bind, ret. simpl. unfold sorted_paths, path_set. simpl.
  by rewrite map_to_list_empty.
Qed.

(** X9 at the call without arguments. *)
Lemma collect_files_no_input_witness :
  collect_files Demo.env None None None Demo.start = (Ok [], Demo.start).
Proof.
  apply (collect_files_no_input Demo.env None None None Demo.start).
  - by left.
  - by left.
Defined.

(** X23. A directory for which [exists()] or [is_dir()] answers [False]
    is skipped: the loop body ends normally with the list it was given, and
    the last thing it did was to log a warning about that directory.
    Collecting from such a directory alone, with no explicit files, returns
    the empty list. *)
Theorem absent_directory_is_skipped (env : Env) (ignore_patterns : list (list N))
    (collected_files : list Path) (directory : list N) (w : world)
    (Habsent : fs_exists env (cwd w) (Path_of directory) = inr false
               ∨ (fs_exists env (cwd w) (Path_of directory) = inr true
                  ∧ fs_is_dir env (cwd w) (Path_of directory) = inr false)) :
  (∃ warning checks,
     collect_directory env ignore_patterns collected_files directory w
     = (Ok collected_files, mkWorld (cwd w) (trace w ++ checks ++ [EvLog warning]))
     ∧ level_of warning = WARNING
     ∧ (warning = LogDirectoryMissing directory ∨ warning = LogNotADirectory directory))
  ∧ (∀ patterns,
       (collect_files env (Some [directory]) None patterns w).1 = Ok []).
Proof.
  split.
  - unfold collect_directory, bind, path_exists, path_is_dir, log, emit, ret,
      record_event. simpl.
    destruct Habsent as [Hexists | [Hexists Hdir]]; rewrite Hexists; simpl.
    + exists (LogDirectoryMissing directory), [EvFs OpExists (Path_of directory)].
      rewrite <-!app_assoc. simpl. by eauto.
    + rewrite Hdir. simpl.
      exists (LogNotADirectory directory),
        [EvFs OpExists (Path_of directory); EvFs OpIsDir (Path_of directory)].
      rewrite <-!app_assoc. simpl. by eauto.
  - intros patterns.
    destruct (collect_files_eq env (Some [directory]) None patterns w) as [_ Hcase].
    unfold collect_fails, gathered in Hcase. simpl in Hcase.
    unfold walk_fails, walked_files in Hcase.
    destruct Habsent as [Hexists | [Hexists Hdir]]; rewrite Hexists in Hcase;
      [|rewrite Hdir in Hcase]; simpl in Hcase; rewrite Hcase;
      unfold sorted_paths, path_set; simpl; by rewrite map_to_list_empty.
Qed.

(** X23 at the directory of the test suite. *)
Lemma absent_directory_is_skipped_witness :
  (∃ warning checks,
     collect_directory Demo.env DEFAULT_IGNORE_PATTERNS [] (lit "/nonexistent/directory")
       Demo.start
     = (Ok [], mkWorld (cwd Demo.start) (trace Demo.start ++ checks ++ [EvLog warning]))
     ∧ level_of warning = WARNING
     ∧ (warning = LogDirectoryMissing (lit "/nonexistent/directory")
        ∨ warning = LogNotADirectory (lit "/nonexistent/directory")))
  ∧ (∀ patterns,
       (collect_files Demo.env (Some [lit "/nonexistent/directory"]) None patterns
          Demo.start).1 = Ok []).
Proof.
  apply (absent_directory_is_skipped Demo.env DEFAULT_IGNORE_PATTERNS []
           (lit "/nonexistent/directory") Demo.start).
  left. vm_compute. reflexivity.
Defined.

Lemma key_lt_irrefl k : ¬ key_lt k k.
Proof. unfold key_lt. by rewrite lex_ltb_irrefl. Qed.

Lemma key_lt_trans k1 k2 k3 : key_lt k1 k2 → key_lt k2 k3 → key_lt k1 k3.
Proof.
  unfold key_lt. apply lex_ltb_trans; [apply str_ltb_irrefl | apply str_ltb_trans].
Qed.

Lemma sorted_path_keys v l :
  StronglySorted (path_lt v) l → StronglySorted key_lt (path_key v <$> l).
Proof.
  induction 1 as [|p l _ IH Hp]; [constructor|].
  rewrite fmap_cons. constructor; [done|].
  apply Forall_fmap. eapply Forall_impl; [exact Hp | done].
Qed.

Lemma sorted_paths_keys_elem_of v l k :
  k ∈ path_key v <$> sorted_paths v (path_set v l) ↔ k ∈ path_key v <$> l.
Proof.
  rewrite !list_elem_of_fmap. split.
  - intros (p & -> & Hp). exists p. split; [done | by eapply sorted_paths_elem_of].
  - intros (p & -> & Hp). destruct (sorted_paths_represents v l p Hp) as (q & Hq & Heq).
    exists q. done.
Qed.

(** The sorted keys are determined by the set of keys gathered. *)
Lemma sorted_paths_keys_determined v l l' :
  (∀ k, k ∈ path_key v <$> l ↔ k ∈ path_key v <$> l') →
  path_key v <$> sorted_paths v (path_set v l)
  = path_key v <$> sorted_paths v (path_set v l').
Proof.
  intros Hsame.
  apply (StronglySorted_unique_strong key_lt).
  - intros s t _ _ Hst Hts. exfalso.
    by eapply key_lt_irrefl, key_lt_trans.
  - apply sorted_path_keys, sorted_paths_sorted.
  - apply sorted_path_keys, sorted_paths_sorted.
  - apply NoDup_Permutation; [apply sorted_paths_NoDup | apply sorted_paths_NoDup |].
    intros k. by rewrite !sorted_paths_keys_elem_of.
Qed.

Lemma gathered_same_inputs env d directories directories' files files' ignore_patterns p :
  (∀ x, x ∈ default [] directories ↔ x ∈ default [] directories') →
  (∀ x, x ∈ default [] files ↔ x ∈ default [] files') →
  p ∈ gathered env d directories files ignore_patterns →
  p ∈ gathered env d directories' files' ignore_patterns.
Proof.
  intros Hd Hf. unfold gathered. rewrite !elem_of_app, !list_elem_of_bind.
  intros [(x & Hp & Hx) | (x & Hp & Hx)]; [left | right]; exists x;
    (split; [done|]); by first [apply Hd | apply Hf].
Qed.

Lemma existsb_same_elements {A} (f : A → bool) (l l' : list A) :
  (∀ x, x ∈ l ↔ x ∈ l') → existsb f l = existsb f l'.
Proof.
  intros Hsame. apply eq_true_iff_eq. rewrite !existsb_exists.
  split; intros (x & Hx%list_elem_of_In & Hf); exists x;
    (split; [apply list_elem_of_In; by apply Hsame | done]).
Qed.

Lemma path_str_of_key_312 p : path_str p = join [slash] (path_key Pathlib312 p).
Proof. simpl. by rewrite join_split. Qed.

(** X10. Whether the collector returns, and the paths it returns as
    [pathlib] compares them and in their order, depend only on which
    directories and which files are given: giving them in another order, or
    giving one of them twice, changes nothing. From CPython 3.12 on, the two
    lists are displayed alike. *)
Theorem collect_files_order_independent (env : Env)
    (directories directories' files files' ignore_patterns : option (list (list N)))
    (w w1 : world) (result : list Path)
    (Hdirectories : ∀ x, x ∈ default [] directories ↔ x ∈ default [] directories')
    (Hfiles : ∀ x, x ∈ default [] files ↔ x ∈ default [] files')
    (Hreturns : collect_files env directories files ignore_patterns w = (Ok result, w1)) :
  ∃ result' w2,
    collect_files env directories' files' ignore_patterns w = (Ok result', w2)
    ∧ path_key (pathlib env) <$> result = path_key (pathlib env) <$> result'
    ∧ (pathlib env = Pathlib312 → path_str <$> result = path_str <$> result').
Proof.
  apply collect_files_returns in Hreturns as [Hfine ->].
  destruct (collect_files_eq env directories' files' ignore_patterns w) as [_ Hcase].
  assert (collect_fails env (cwd w) directories' files' = false) as Hfine'.
  { rewrite <-Hfine. unfold collect_fails.
    rewrite (existsb_same_elements _ _ _ Hdirectories).
    by rewrite (existsb_same_elements _ _ _ Hfiles). }
  rewrite Hfine' in Hcase.
  destruct (collect_files env directories' files' ignore_patterns w) as [r w2].
  simpl in Hcase. subst r. eexists _, w2. split; [done|].
  assert (∀ v, path_key v <$> sorted_paths v
                 (path_set v (gathered env (cwd w) directories files ignore_patterns))
               = path_key v <$> sorted_paths v
                   (path_set v (gathered env (cwd w) directories' files' ignore_patterns)))
    as Hkeys.
  { intros v. apply sorted_paths_keys_determined. intros k. rewrite !list_elem_of_fmap.
    split; intros (p & -> & Hp); exists p; (split; [done|]);
      eapply gathered_same_inputs; try exact Hp; intros x;
      by rewrite ?Hdirectories, ?Hfiles. }
  split; [apply Hkeys|].
  intros ->. specialize (Hkeys Pathlib312).
  rewrite !(list_fmap_ext path_str _ _ (fun _ p _ => path_str_of_key_312 p)).
  rewrite (list_fmap_compose (path_key Pathlib312) (join [slash])).
  rewrite Hkeys. by rewrite <-list_fmap_compose.
Qed.

(** X10 at two ways of naming the same directories and files. *)
Lemma collect_files_order_independent_witness :
  ∃ result' w2,
    collect_files Demo.env (Some [lit "."; lit "src"; lit "."])
      (Some [lit "notes.md"; lit "README.md"]) None Demo.start = (Ok result', w2)
    ∧ path_key (pathlib Demo.env)
        <$> (Path_of ∘ lit <$> ["README.md"; "blob.bin"; "data.json"; "latin.txt";
                                "notes.md"; "src/main.py"]%string)
      = path_key (pathlib Demo.env) <$> result'
    ∧ (pathlib Demo.env = Pathlib312 →
       path_str <$> (Path_of ∘ lit <$> ["README.md"; "blob.bin"; "data.json"; "latin.txt";
                                        "notes.md"; "src/main.py"]%string)
       = path_str <$> result').
Proof.
  apply (collect_files_order_independent Demo.env
           (Some [lit "src"; lit "."]) (Some [lit "."; lit "src"; lit "."])
           (Some [lit "README.md"; lit "notes.md"])
           (Some [lit "notes.md"; lit "README.md"]) None Demo.start
           (collect_files Demo.env (Some [lit "src"; lit "."])
              (Some [lit "README.md"; lit "notes.md"]) None Demo.start).2).
  - intros x. simpl. rewrite !elem_of_cons. tauto.
  - intros x. simpl. rewrite !elem_of_cons. tauto.
  - vm_compute. reflexivity.
Defined.

(** ** More on summaries *)

(** The summary of a file: what is returned and what is recorded, by the
    answer of the model. *)
Lemma generate_file_summary_cases (env : Env) (file_path : Path)
    (content model : list N) (w : world) :
  ∃ summary logged,
    generate_file_summary env file_path content model w
    = (Ok summary,
       mkWorld (cwd w)
         (trace w ++ EvPrompt (summary_prompt file_path content) [model] :: logged))
    ∧ match llm_prompt env (summary_prompt file_path content) [model] with
      | inl e =>
          summary = lit "Summary generation failed"
          ∧ logged = [EvLog (LogSummaryFailed file_path e)]
      | inr [] => summary = lit "No summary available" ∧ logged = []
      | inr (response :: _) => summary = strip response ∧ logged = []
      end.
Proof.
  unfold generate_file_summary, try_except, bind, prompt, log, emit, ret,
    record_event, truthy, list_truthy. simpl.
  destruct (llm_prompt env _ _) as [e|[|response responses]]; simpl.
  - eexists _, _. split; [|done]. by rewrite <-app_assoc.
  - exists (lit "No summary available"), []. repeat split.
  - exists (strip response), []. repeat split.
Qed.

(** X11. The summary of a file never raises and asks the model exactly
    once: when the model fails, the failure is logged as a warning and the
    summary is the sentence [Summary generation failed]; when it answers with
    no response, the summary is [No summary available]; otherwise it is the
    first response without the white space around it. *)
Theorem generate_file_summary_outcome (env : Env) (file_path : Path)
    (content model : list N) (w : world) :
  let asked := EvPrompt (summary_prompt file_path content) [model] in
  ∃ summary logged,
    generate_file_summary env file_path content model w
    = (Ok summary, mkWorld (cwd w) (trace w ++ asked :: logged))
    ∧ match llm_prompt env (summary_prompt file_path content) [model] with
      | inl e =>
          summary = lit "Summary generation failed"
          ∧ logged = [EvLog (LogSummaryFailed file_path e)]
          ∧ level_of (LogSummaryFailed file_path e) = WARNING
      | inr [] => summary = lit "No summary available" ∧ logged = []
      | inr (response :: _) => summary = strip response ∧ logged = []
      end.
Proof.
  intros asked.
  destruct (generate_file_summary_cases env file_path content model w)
    as (summary & logged & Hrun & Hcase).
  exists summary, logged. split; [exact Hrun|].
  destruct (llm_prompt env _ _) as [e|[|response responses]]; [|done|done].
  destruct Hcase as [-> ->]. done.
Qed.

Lemma prompts_unchanged w w' : adds not_a_prompt w w' → prompts w' = prompts w.
Proof.
  intros (evs & Ht & Hf). unfold prompts. rewrite Ht, omap_app. clear Ht.
  rewrite <-(app_nil_r (omap _ (trace w))) at 2. f_equal.
  induction Hf as [|e evs He _ IH]; [done|]. by destruct e.
Qed.

Lemma read_file_content_no_prompt env file_path include_line_numbers :
  emits_only not_a_prompt (read_file_content env file_path include_line_numbers).
Proof.
  intros w. unfold read_file_content, try_except, bind, read_text, ret. simpl.
  destruct (fs_read_bytes env (cwd w) file_path) as [msg|bs] eqn:Hbytes; simpl.
  { apply adds_record; [apply adds_refl | done]. }
  destruct (utf8_decode bs); simpl.
  { apply adds_record; [apply adds_refl | done]. }
  rewrite Hbytes. simpl.
  destruct (forallb _ _); simpl;
    (apply adds_record; [apply adds_record; [apply adds_refl | done] | done]).
Qed.

Lemma startswith_bracket c s :
  startswith (c :: s) (lit "[") = bool_decide (c = 91%N).
Proof.
  unfold startswith. change (lit "[") with [91%N].
  apply bool_decide_ext. split.
  - intros [k Hk]. by inversion Hk.
  - intros ->. by exists s.
Qed.

Lemma number_lines_no_bracket content :
  startswith (number_lines content) (lit "[") = false.
Proof.
  unfold number_lines. destruct (splitlines content) as [|line rest]; [done|].
  rewrite imap_cons.
  replace (rjust 4 (str_of_nat 1)) with [32; 32; 32; 49]%N by (by vm_compute).
  destruct (imap _ rest); simpl; by rewrite startswith_bracket.
Qed.

(** With line numbering on, the text shown starts with a bracket exactly
    when the file was not read as text. *)
Lemma numbered_bracket_iff_not_text outcome :
  startswith (decoding_policy outcome true) (lit "[") = negb (read_as_text outcome).
Proof.
  unfold decoding_policy, read_as_text, render.
  destruct outcome as [reason|bs].
  - by change (lit "[Error reading file: ") with (91%N :: lit "Error reading file: ").
  - destruct (utf8_decode bs); [apply number_lines_no_bracket|].
    simpl. destruct (forallb _ _); [apply number_lines_no_bracket | done].
Qed.

Lemma process_file_without_cwd_prompts env summarize_model include_line_numbers
    content_lines file_path w :
  cwd_known env (cwd w) = false →
  prompts (process_file env summarize_model include_line_numbers content_lines
             file_path w).2 = prompts w.
Proof.
  unfold cwd_known. destruct (os_getcwd_error env (cwd w)) as [msg|] eqn:Hcwd; [|done].
  intros _. rewrite (process_file_without_cwd env _ _ _ _ _ _ Hcwd). simpl.
  apply prompts_unchanged.
  apply adds_record; [apply adds_record; [apply adds_refl | done] | done].
Qed.

(** X12. With line numbering on, the section of a file asks the
    summarizer exactly when [Path.cwd()] answers, a model is given and the
    file was read as text, and then once, with the prompt made from the
    numbered text; in every other case no prompt is sent. *)
Theorem summary_requested_iff_read_as_text (env : Env) (summarize_model : option (list N))
    (content_lines : list (list N)) (file_path : Path) (w : world) :
  let outcome := fs_read_bytes env (cwd w) file_path in
  prompts (process_file env summarize_model true content_lines file_path w).2
  = prompts w
    ++ if cwd_known env (cwd w) && truthy summarize_model && read_as_text outcome
       then [(summary_prompt file_path (decoding_policy outcome true),
              [default [] summarize_model])]
       else [].
Proof.
  intros outcome.
  destruct (cwd_known env (cwd w)) eqn:Hknown.
  2: { rewrite process_file_without_cwd_prompts by done. by rewrite app_nil_r. }
  assert (os_getcwd_error env (cwd w) = None) as Hcwd.
  { unfold cwd_known in Hknown. by destruct (os_getcwd_error env (cwd w)). }
  destruct (process_file_eq env summarize_model true content_lines file_path w Hcwd)
    as (w2 & summary_lines & w3 & Hread & Hsum & -> & _).
  fold outcome in Hread, Hsum. cbn [fst snd andb].
  assert (prompts w2 = prompts w) as Hw2.
  { pose proof (read_file_content_no_prompt env file_path true
                  (record_event EvGetcwd w)) as H.
    rewrite Hread in H. cbn [snd] in H. apply prompts_unchanged in H. rewrite H.
    apply prompts_unchanged. apply adds_record; [apply adds_refl | done]. }
  unfold summary_section in Hsum.
  rewrite numbered_bracket_iff_not_text, negb_involutive in Hsum.
  destruct (truthy summarize_model && read_as_text outcome).
  - pose proof (generate_file_summary_cases env file_path (decoding_policy outcome true)
                  (default [] summarize_model) w2) as (s & logged & Hrun' & Hcase).
    erewrite bind_Ok in Hsum; [|exact Hrun']. injection Hsum as _ <-.
    unfold prompts at 1. cbn [trace]. rewrite omap_app. fold (prompts w2). rewrite Hw2.
    f_equal. simpl.
    destruct (llm_prompt env _ _) as [e|[|? ?]]; destruct Hcase as (_ & ->); done.
  - injection Hsum as _ <-. by rewrite app_nil_r.
Qed.

(** ** More on the whole build *)

Lemma emits_only_weaken {A} (P Q : event → Prop) (c : M A) :
  (∀ e, P e → Q e) → emits_only P c → emits_only Q c.
Proof. intros HPQ Hc w. eapply adds_weaken; [exact HPQ | apply Hc]. Qed.

Lemma emits_only_bind_ret {A B} P (a : A) (k : A → M B) :
  emits_only P (k a) → emits_only P (bind (ret a) k).
Proof. intros Hk w. apply Hk. Qed.

Lemma emits_only_bind_raise {A B} P e (k : A → M B) :
  emits_only P (bind (raise e) k).
Proof. intros w. apply adds_refl. Qed.

Lemma emits_only_read_file_content env P file_path include_line_numbers :
  P (EvFs OpRead file_path) →
  emits_only P (read_file_content env file_path include_line_numbers).
Proof.
  intros HP w. unfold read_file_content, try_except, bind, read_text, ret. simpl.
  destruct (fs_read_bytes env (cwd w) file_path) as [msg|bs] eqn:Hbytes; simpl.
  { apply adds_record; [apply adds_refl | done]. }
  destruct (utf8_decode bs); simpl.
  { apply adds_record; [apply adds_refl | done]. }
  rewrite Hbytes. simpl.
  destruct (forallb _ _); simpl;
    (apply adds_record; [apply adds_record; [apply adds_refl | done] | done]).
Qed.

Lemma process_file_writes_nothing env summarize_model include_line_numbers
    content_lines file_path :
  emits_only not_a_write
    (process_file env summarize_model include_line_numbers content_lines file_path).
Proof.
  unfold process_file, Path_cwd, summary_section, generate_file_summary.
  repeat first [apply emits_only_read_file_content | emits_step]; exact I.
Qed.

Lemma is_read_not_a_write e : is_read e → not_a_write e.
Proof. by destruct e. Qed.

Lemma bind_Ok_inv {A B} (c : M A) (k : A → M B) w b w' :
  bind c k w = (Ok b, w') → ∃ a w1, c w = (Ok a, w1) ∧ k a w1 = (Ok b, w').
Proof. unfold bind. destruct (c w) as [[a|e] w1]; [by eauto | done]. Qed.

(** The summary subsection, by the answer of the language model. *)
Lemma summary_section_lines env summarize_model file_path file_content w :
  ∃ w',
    summary_section env summarize_model file_path file_content w
    = (Ok [lit "### Summary";
           if truthy summarize_model && negb (startswith file_content (lit "["))
           then summary_of env file_path file_content (default [] summarize_model)
           else lit "[No summary available]";
           []], w').
Proof.
  unfold summary_section, summary_of.
  destruct (truthy summarize_model && _); [|by eexists].
  destruct (generate_file_summary_cases env file_path file_content
              (default [] summarize_model) w) as (summary & logged & Hrun & Hcase).
  erewrite bind_Ok; [|exact Hrun]. eexists. unfold ret. do 3 f_equal.
  destruct (llm_prompt env _ _) as [e|[|? ?]]; by destruct Hcase as [-> _].
Qed.

(** The lines appended for one file are its section. *)
Lemma process_file_section env summarize_model include_line_numbers content_lines
    file_path w :
  ∃ w',
    process_file env summarize_model include_line_numbers content_lines file_path w
    = (Ok (content_lines
           ++ file_section env (cwd w) summarize_model include_line_numbers file_path), w')
    ∧ extends w w'.
Proof.
  unfold file_section.
  destruct (os_getcwd_error env (cwd w)) as [msg|] eqn:Hcwd.
  - rewrite (process_file_without_cwd env _ _ _ _ _ _ Hcwd).
    eexists. split; [done | solve_extends].
  - destruct (process_file_eq env summarize_model include_line_numbers content_lines
                file_path w Hcwd) as (w2 & summary_lines & w3 & _ & Hsum & -> & Hext).
    destruct (summary_section_lines env summarize_model file_path
                (decoding_policy (fs_read_bytes env (cwd w) file_path)
                   include_line_numbers) w2) as (w3' & Hsum').
    rewrite Hsum' in Hsum. injection Hsum as <- _.
    exists w3. split; [|done]. cbv zeta. f_equal.
    by repeat (rewrite <-app_assoc; simpl).
Qed.

(** The sections are appended to the lines before them, one for each
    collected file. *)
Lemma sections_appended env summarize_model include_line_numbers collected_files :
  ∀ content_lines w, ∃ w',
    for_each collected_files (process_file env summarize_model include_line_numbers)
      content_lines w
    = (Ok (content_lines
           ++ (collected_files
               ≫= file_section env (cwd w) summarize_model include_line_numbers)), w')
    ∧ extends w w'.
Proof.
  induction collected_files as [|file_path rest IH]; intros content_lines w; simpl.
  - exists w. rewrite app_nil_r. split; [done | apply extends_refl].
  - destruct (process_file_section env summarize_model include_line_numbers content_lines
                file_path w) as (w1 & Hrun & Hext1).
    erewrite bind_Ok; [|exact Hrun].
    match goal with |- context [for_each rest _ ?lines w1] =>
      destruct (IH lines w1) as (w' & -> & Hext2)
    end.
    exists w'. destruct Hext1 as [Hcwd Hevs]. rewrite Hcwd.
    split; [by rewrite <-!app_assoc|].
    eapply extends_trans; [by split | exact Hext2].
Qed.

(** A normal end of the guarded part: the destination was given, and the
    last three things done were to make its directory, to write the document
    and to log it. *)
Lemma assemble_Ok env directories files output_file overview_text summarize_model
    ignore_patterns base_directory include_line_numbers w output_path w' :
  assemble env directories files output_file overview_text summarize_model
    ignore_patterns base_directory include_line_numbers w = (Ok output_path, w') →
  ∃ destination before,
    output_file = Some destination
    ∧ output_path = path_str (Path_of destination)
    ∧ Forall not_a_write before
    ∧ trace w'
      = trace w ++ before
        ++ [EvWrite (Path_of destination)
              (join [10%N]
                 (heading_lines overview_text
                  ++ document_sections env (cwd w) directories files ignore_patterns
                       summarize_model include_line_numbers));
            EvLog (LogGenerated (Path_of destination))].
Proof.
  unfold assemble. intros Hrun.
  apply bind_Ok_inv in Hrun as (base_path & w1 & Hbase & Hrun).
  assert (adds not_a_write w w1) as Hw1.
  { match type of Hbase with ?c w = _ =>
      assert (emits_only not_a_write c) as H
    end.
    { unfold Path_cwd. repeat emits_step; exact I. }
    specialize (H w). by rewrite Hbase in H. }
  assert (cwd w1 = cwd w) as Hcwd1.
  { revert Hbase. destruct (truthy base_directory); [by intros [= _ <-]|].
    destruct (truthy directories); [by intros [= _ <-]|].
    destruct (truthy files); [by intros [= _ <-]|].
    unfold Path_cwd, bind, os_getcwd, ret.
    destruct (os_getcwd_error env (cwd w)); [done | by intros [= _ <-]]. }
  apply bind_Ok_inv in Hrun as (collected_files & w2 & Hcollect & Hrun).
  assert (adds not_a_write w1 w2) as Hw2.
  { pose proof (collect_files_reads_only env directories files ignore_patterns w1) as H.
    rewrite Hcollect in H. eapply adds_weaken; [apply is_read_not_a_write | exact H]. }
  assert (cwd w2 = cwd w1) as Hcwd2.
  { destruct (collect_files_eq env directories files ignore_patterns w1) as [[H _] _].
    by rewrite Hcollect in H. }
  apply collect_files_returns in Hcollect as [_ Hcollected].
  apply bind_Ok_inv in Hrun as ([] & w3 & Hlog & Hrun).
  injection Hlog as <-.
  apply bind_Ok_inv in Hrun as (content_lines & w4 & Hsections & Hrun).
  assert (adds not_a_write (record_event (EvLog (LogCollected (length collected_files))) w2)
            w4) as Hw4.
  { match type of Hsections with for_each ?l ?body ?s ?w0 = _ =>
      assert (emits_only not_a_write (for_each l body s)) as H
    end.
    { apply emits_only_for_each. intros. apply process_file_writes_nothing. }
    match type of Hsections with _ ?w0 = _ => specialize (H w0) end.
    by rewrite Hsections in H. }
  match type of Hsections with for_each ?l _ ?s ?w0 = _ =>
    destruct (sections_appended env summarize_model include_line_numbers l s w0)
      as (w4' & Hsections' & _)
  end.
  rewrite Hsections' in Hsections. injection Hsections as <- <-.
  destruct output_file as [destination|]; [|done]. simpl in Hrun.
  apply bind_Ok_inv in Hrun as (? & w5 & Hret & Hrun). injection Hret as <- <-.
  apply bind_Ok_inv in Hrun as ([] & w6 & Hmkdir & Hrun).
  apply bind_Ok_inv in Hrun as ([] & w7 & Hwrite & Hrun).
  apply bind_Ok_inv in Hrun as ([] & w8 & Hlog & Hrun).
  injection Hrun as <- <-. injection Hlog as <-.
  unfold path_mkdir in Hmkdir. unfold write_text in Hwrite.
  injection Hmkdir as _ <-. injection Hwrite as _ <-.
  destruct Hw1 as (e1 & Ht1 & Hf1). destruct Hw2 as (e2 & Ht2 & Hf2).
  destruct Hw4 as (e4 & Ht4 & Hf4). simpl in Ht4.
  exists destination,
    (e1 ++ e2 ++ [EvLog (LogCollected (length collected_files))] ++ e4
     ++ [EvFs OpMkdir (parent (Path_of destination))]).
  split; [done|]. split; [done|]. split.
  - repeat (apply Forall_app; split); try done; by repeat constructor.
  - simpl. rewrite Ht4, Ht2, Ht1. unfold heading_lines, document_sections.
    change (cwd (record_event (EvLog (LogCollected (length collected_files))) w2))
      with (cwd w2).
    rewrite Hcwd1 in Hcwd2, Hcollected. rewrite Hcwd2, <-Hcollected.
    rewrite <-!app_assoc. simpl. by rewrite <-!app_assoc.
Qed.

Lemma try_finally_Ok_inv {A} (c : M A) (fin : M unit) w a w' :
  try_finally c fin w = (Ok a, w') →
  ∃ w1, c w = (Ok a, w1) ∧ fin w1 = (Ok tt, w').
Proof.
  unfold try_finally. destruct (c w) as [r w1].
  destruct (fin w1) as [[[]|e] w2] eqn:Hfin; [|done].
  intros [= -> ->]. exists w1. done.
Qed.

Lemma enter_directory_writes_nothing env current_working_directory :
  emits_only not_a_write (enter_directory env current_working_directory).
Proof. unfold enter_directory. repeat emits_step; exact I. Qed.

Lemma restore_directory_writes_nothing env original_cwd :
  emits_only not_a_write (restore_directory env original_cwd).
Proof. unfold restore_directory. repeat emits_step; exact I. Qed.

(** Where the guarded part runs: the alternate directory as the kernel
    resolved it, or the directory of the call. *)
Lemma enter_directory_Ok env current_working_directory w original_cwd w' :
  enter_directory env current_working_directory w = (Ok original_cwd, w') →
  if truthy current_working_directory
  then os_chdir_to env (cwd w) (default [] current_working_directory) = inr (cwd w')
  else cwd w' = cwd w.
Proof.
  unfold enter_directory. destruct (truthy current_working_directory).
  - unfold bind, os_getcwd, os_chdir, log, emit, ret. simpl.
    destruct (os_getcwd_error env (cwd w)); [done|]. simpl.
    destruct (os_chdir_to env (cwd w) _); [done|]. simpl. by intros [= _ <-].
  - by intros [= _ <-].
Qed.

(** A build that returns: where it ran, and what it recorded. *)
Lemma build_context_returns env directories files output_file overview_text
    summarize_model ignore_patterns base_directory current_working_directory
    include_line_numbers w output_path :
  (build_context env directories files output_file overview_text summarize_model
     ignore_patterns base_directory current_working_directory
     include_line_numbers w).1 = Ok output_path →
  ∃ destination d before after,
    output_file = Some destination
    ∧ output_path = path_str (Path_of destination)
    ∧ (if truthy current_working_directory
       then os_chdir_to env (cwd w) (default [] current_working_directory) = inr d
       else d = cwd w)
    ∧ trace (build_context env directories files output_file overview_text
               summarize_model ignore_patterns base_directory
               current_working_directory include_line_numbers w).2
      = trace w ++ before
        ++ EvWrite (Path_of destination)
             (join [10%N]
                (heading_lines overview_text
                 ++ document_sections env d directories files ignore_patterns
                      summarize_model include_line_numbers)) :: after
    ∧ Forall not_a_write before
    ∧ Forall not_a_write after.
Proof.
  unfold build_context.
  destruct (negb (truthy directories) && negb (truthy files)); [done|].
  match goal with |- (?c w).1 = _ → _ => destruct (c w) as [r w'] eqn:Hrun end.
  simpl. intros ->.
  apply bind_Ok_inv in Hrun as ([] & w0 & Hlog & Hrun). injection Hlog as <-.
  apply bind_Ok_inv in Hrun as (original_cwd & w1 & Henter & Hrun).
  apply try_finally_Ok_inv in Hrun as (w2 & Hguarded & Hrestore).
  match type of Hguarded with try_except ?c _ w1 = _ =>
    destruct (guarded_cases c output_file w1)
      as [(a & w2' & Hassemble & Heq) | (e & w2' & _ & Heq)]
  end; cbv zeta in Heq; rewrite Heq in Hguarded; [|done].
  injection Hguarded as -> ->.
  apply assemble_Ok in Hassemble
    as (destination & before & -> & -> & Hbefore & Htrace).
  pose proof (enter_directory_writes_nothing env current_working_directory
                (record_event (EvLog (LogBuilding directories files)) w))
    as (e1 & Ht1 & Hf1).
  rewrite Henter in Ht1. simpl in Ht1.
  pose proof (restore_directory_writes_nothing env original_cwd w2) as (e3 & Ht3 & Hf3).
  rewrite Hrestore in Ht3. simpl in Ht3.
  exists destination, (cwd w1),
    ([EvLog (LogBuilding directories files)] ++ e1 ++ before),
    ([EvLog (LogGenerated (Path_of destination))] ++ e3).
  split; [done|]. split; [done|]. split; [|split; [|split]].
  - apply enter_directory_Ok in Henter.
    destruct (truthy current_working_directory); [exact Henter | by symmetry].
  - rewrite Ht3, Htrace, Ht1. simpl. by repeat (rewrite <-app_assoc; simpl).
  - repeat (apply Forall_app; split); try done. by repeat constructor.
  - apply Forall_app. split; [by repeat constructor | done].
Qed.

(** X13. When the build returns, it returns the destination as [Path]
    prints it, and it has written exactly one file: the destination, with
    the overview (when there is one) and the heading of the files before any
    section. *)
Theorem build_context_success_document (env : Env)
    (directories files : option (list (list N))) (output_file overview_text : option (list N))
    (summarize_model : option (list N)) (ignore_patterns : option (list (list N)))
    (base_directory current_working_directory : option (list N))
    (include_line_numbers : bool) (w : world) (output_path : list N)
    (Hreturns :
       (build_context env directories files output_file overview_text summarize_model
          ignore_patterns base_directory current_working_directory
          include_line_numbers w).1 = Ok output_path) :
  ∃ destination sections before after,
    output_file = Some destination
    ∧ output_path = path_str (Path_of destination)
    ∧ trace (build_context env directories files output_file overview_text
               summarize_model ignore_patterns base_directory
               current_working_directory include_line_numbers w).2
      = trace w ++ before
        ++ EvWrite (Path_of destination)
             (join [10%N] (heading_lines overview_text ++ sections)) :: after
    ∧ Forall not_a_write before
    ∧ Forall not_a_write after.
Proof.
  apply build_context_returns in Hreturns
    as (destination & d & before & after & Hdest & Hpath & _ & Htrace & Hbefore & Hafter).
  by exists destination,
    (document_sections env d directories files ignore_patterns summarize_model
       include_line_numbers), before, after.
Qed.

(** X13 at a build of one file with an overview. *)
Lemma build_context_success_document_witness :
  ∃ destination sections before after,
    Some (lit "out/ctx.md") = Some destination
    ∧ lit "out/ctx.md" = path_str (Path_of destination)
    ∧ trace (build_context Demo.env None (Some [lit "src/main.py"])
               (Some (lit "out/ctx.md")) (Some (lit "A demo.")) None None None None
               true Demo.start).2
      = trace Demo.start ++ before
        ++ EvWrite (Path_of destination)
             (join [10%N] (heading_lines (Some (lit "A demo.")) ++ sections)) :: after
    ∧ Forall not_a_write before
    ∧ Forall not_a_write after.
Proof.
  apply (build_context_success_document Demo.env None (Some [lit "src/main.py"])
           (Some (lit "out/ctx.md")) (Some (lit "A demo.")) None None None None
           true Demo.start (lit "out/ctx.md")).
  vm_compute. reflexivity.
Defined.

(** X14. Whatever the outcome, the only file a build ever tries to write
    is its destination: no event of a run writes another path, and a run
    without a destination writes nothing. *)
Theorem build_context_writes_only_destination (env : Env)
    (directories files : option (list (list N))) (output_file overview_text : option (list N))
    (summarize_model : option (list N)) (ignore_patterns : option (list (list N)))
    (base_directory current_working_directory : option (list N))
    (include_line_numbers : bool) (w : world) :
  adds (writes_only_to (Path_of <$> output_file)) w
    (build_context env directories files output_file overview_text summarize_model
       ignore_patterns base_directory current_working_directory
       include_line_numbers w).2.
Proof.
  set (P := writes_only_to (Path_of <$> output_file)).
  assert (∀ e, not_a_write e → P e) as Hweak by (by intros []).
  revert w.
  change (emits_only P
            (build_context env directories files output_file overview_text
               summarize_model ignore_patterns base_directory
               current_working_directory include_line_numbers)).
  unfold build_context, assemble, Path_cwd.
  destruct (negb (truthy directories) && negb (truthy files)); [apply emits_only_raise|].
  apply emits_only_bind; [by apply emits_only_log|]. intros _.
  apply emits_only_bind.
  { eapply emits_only_weaken; [exact Hweak | apply enter_directory_writes_nothing]. }
  intros original_cwd. apply emits_only_try_finally.
  2: { eapply emits_only_weaken; [exact Hweak | apply restore_directory_writes_nothing]. }
  apply emits_only_try_except_1.
  2: { intros e. repeat emits_step; exact I. }
  apply emits_only_bind.
  { repeat emits_step; exact I. }
  intros base_path. apply emits_only_bind.
  { eapply emits_only_weaken; [|apply collect_files_reads_only].
    intros e He. by apply Hweak, is_read_not_a_write. }
  intros collected_files. apply emits_only_bind; [by apply emits_only_log|]. intros _.
  apply emits_only_bind.
  { apply emits_only_for_each. intros.
    eapply emits_only_weaken; [exact Hweak | apply process_file_writes_nothing]. }
  intros content_lines. subst P.
  destruct output_file as [destination|]; simpl.
  - apply emits_only_bind_ret. repeat emits_step; done.
  - apply emits_only_bind_raise.
Qed.

(** X15. A build raises nothing but [ValueError], except for the
    [OSError] of a change of working directory, which can only happen when an
    alternate working directory is given. *)
Theorem build_context_raises_only (env : Env)
    (directories files : option (list (list N))) (output_file overview_text : option (list N))
    (summarize_model : option (list N)) (ignore_patterns : option (list (list N)))
    (base_directory current_working_directory : option (list N))
    (include_line_numbers : bool) (w : world) :
  match (build_context env directories files output_file overview_text summarize_model
           ignore_patterns base_directory current_working_directory
           include_line_numbers w).1 with
  | Ok _ => True
  | Raise e =>
      exn_kind e = ValueError
      ∨ (exn_kind e = OSError ∧ truthy current_working_directory = true)
  end.
Proof.
  destruct (negb (truthy directories) && negb (truthy files)) eqn:Hargs.
  { unfold build_context. rewrite Hargs. simpl. by left. }
  destruct (truthy current_working_directory) eqn:Halt.
  - pose proof (build_context_exits env directories files output_file overview_text
                  summarize_model ignore_patterns base_directory
                  current_working_directory include_line_numbers w Hargs) as H.
    destruct (build_context _ _ _ _ _ _ _ _ _ _ _).1 as [|e]; [done|].
    destruct H as [H | [msg ->]]; [right | left]; done.
  - unfold build_context, enter_directory, restore_directory. rewrite Hargs, Halt.
    erewrite bind_Ok; [|reflexivity]. erewrite bind_Ok; [|reflexivity].
    unfold try_finally.
    match goal with |- context [try_except ?c _ ?w0] =>
      destruct (guarded_cases c output_file w0)
        as [(a & w2 & _ & Heq) | (e & w2 & _ & Heq)]
    end; cbv zeta in Heq; rewrite Heq; simpl; [done | by left].
Qed.

(** ** When the summarizer is left alone *)

Lemma summary_section_without_model env P summarize_model file_path file_content :
  truthy summarize_model = false →
  emits_only P (summary_section env summarize_model file_path file_content).
Proof. intros Hmodel. unfold summary_section. rewrite Hmodel. apply emits_only_ret. Qed.

Lemma process_file_without_model env summarize_model include_line_numbers
    content_lines file_path :
  truthy summarize_model = false →
  emits_only not_a_prompt
    (process_file env summarize_model include_line_numbers content_lines file_path).
Proof.
  intros Hmodel. unfold process_file, Path_cwd.
  repeat first
    [ match goal with
      | |- emits_only _ (read_file_content _ _ _) => apply emits_only_read_file_content
      | |- emits_only _ (summary_section _ _ _ _) =>
          apply summary_section_without_model; exact Hmodel
      end
    | emits_step ]; exact I.
Qed.

Lemma is_read_not_a_prompt e : is_read e → not_a_prompt e.
Proof. by destruct e. Qed.

(** X16. Without a summarization model (left out, or empty) a build sends
    no prompt at all, whatever it collects and however it ends. *)
Theorem build_context_without_model_sends_nothing (env : Env)
    (directories files : option (list (list N))) (output_file overview_text : option (list N))
    (summarize_model : option (list N)) (ignore_patterns : option (list (list N)))
    (base_directory current_working_directory : option (list N))
    (include_line_numbers : bool) (w : world)
    (Hmodel : truthy summarize_model = false) :
  prompts (build_context env directories files output_file overview_text summarize_model
             ignore_patterns base_directory current_working_directory
             include_line_numbers w).2
  = prompts w.
Proof.
  apply prompts_unchanged. revert w.
  change (emits_only not_a_prompt
            (build_context env directories files output_file overview_text
               summarize_model ignore_patterns base_directory
               current_working_directory include_line_numbers)).
  unfold build_context, assemble, enter_directory, restore_directory, Path_cwd, Path_new.
  repeat first
    [ match goal with
      | |- emits_only _ (process_file _ _ _ _ _) =>
          apply process_file_without_model; exact Hmodel
      | |- emits_only _ (collect_files _ _ _ _) =>
          eapply emits_only_weaken;
            [apply is_read_not_a_prompt | apply collect_files_reads_only]
      end
    | emits_step ]; exact I.
Qed.

(** X16 at a build of the whole demo directory with no model. *)
Lemma build_context_without_model_sends_nothing_witness :
  prompts (build_context Demo.env (Some [lit "."]) None (Some (lit "out.md")) None None
             None None None true Demo.start).2
  = prompts Demo.start.
Proof.
  apply (build_context_without_model_sends_nothing Demo.env (Some [lit "."]) None
           (Some (lit "out.md")) None None None None None true Demo.start).
  reflexivity.
Defined.

Lemma unread_starts_with_bracket outcome include_line_numbers :
  read_as_text outcome = false →
  startswith (decoding_policy outcome include_line_numbers) (lit "[") = true.
Proof.
  unfold read_as_text, decoding_policy. destruct outcome as [reason|bs].
  - intros _. unfold startswith. apply bool_decide_eq_true_2.
    exists (lit "Error reading file: " ++ reason ++ lit "]"). reflexivity.
  - destruct (utf8_decode bs); [done|]. cbv zeta. intros ->.
    unfold startswith. apply bool_decide_eq_true_2.
    exists (lit "Binary file - content not displayed]"). reflexivity.
Qed.

(** X17. A file that could not be read as text (it could not be opened,
    or it is taken for binary) is never sent to the summarizer, with or
    without line numbering, whatever model is given: when [Path.cwd()]
    answers, the summary of its section is the placeholder; when it raises,
    the section is the error note, which has no summary. *)
Theorem unread_file_is_not_summarized (env : Env) (summarize_model : option (list N))
    (include_line_numbers : bool) (content_lines : list (list N)) (file_path : Path)
    (w : world)
    (Hunread : read_as_text (fs_read_bytes env (cwd w) file_path) = false) :
  let run := process_file env summarize_model include_line_numbers content_lines
               file_path w in
  prompts run.2 = prompts w
  ∧ match os_getcwd_error env (cwd w) with
    | None =>
        ∃ before after,
          run.1 = Ok (before ++ [lit "### Summary"; lit "[No summary available]"; []]
                      ++ after)
    | Some msg =>
        run.1 = Ok (content_lines ++ error_section file_path (mkExn OSError msg))
    end.
Proof.
  intros run. subst run.
  destruct (os_getcwd_error env (cwd w)) as [msg|] eqn:Hcwd.
  { split.
    - apply process_file_without_cwd_prompts. unfold cwd_known. by rewrite Hcwd.
    - by rewrite (process_file_without_cwd env _ _ _ _ _ _ Hcwd). }
  destruct (process_file_eq env summarize_model include_line_numbers content_lines
              file_path w Hcwd) as (w2 & summary_lines & w3 & Hread & Hsum & -> & _).
  cbn [fst snd]. unfold summary_section in Hsum.
  rewrite (unread_starts_with_bracket _ include_line_numbers Hunread) in Hsum.
  rewrite andb_false_r in Hsum. injection Hsum as <- <-.
  split.
  - pose proof (emits_only_read_file_content env not_a_prompt file_path
                  include_line_numbers I (record_event EvGetcwd w)) as H.
    rewrite Hread in H. cbn [snd] in H. apply prompts_unchanged in H. rewrite H.
    apply prompts_unchanged. apply adds_record; [apply adds_refl | done].
  - exists (content_lines
            ++ [lit "## " ++ path_str (default file_path
                                         (relative_to file_path (Path_of (cwd w))))]),
           ([lit "### File Contents"]
            ++ code_block (get_file_language (str_lower env) file_path)
                 (decoding_policy (fs_read_bytes env (cwd w) file_path)
                    include_line_numbers)).
    f_equal. by rewrite <-!app_assoc.
Qed.

(** X17 at the binary file of the demo, with a model given. *)
Lemma unread_file_is_not_summarized_witness :
  let run := process_file Demo.env (Some (lit "gpt")) false [] (Path_of (lit "blob.bin"))
               Demo.start in
  prompts run.2 = prompts Demo.start
  ∧ match os_getcwd_error Demo.env (cwd Demo.start) with
    | None =>
        ∃ before after,
          run.1 = Ok (before ++ [lit "### Summary"; lit "[No summary available]"; []]
                      ++ after)
    | Some msg =>
        run.1 = Ok ([] ++ error_section (Path_of (lit "blob.bin")) (mkExn OSError msg))
    end.
Proof.
  apply (unread_file_is_not_summarized Demo.env (Some (lit "gpt")) false []
           (Path_of (lit "blob.bin")) Demo.start).
  vm_compute. reflexivity.
Defined.

(** ** A lone star *)

(** X18. The pattern made of a star alone ignores every path: its
    remainder is empty, and every base name ends with the empty string. *)
Theorem lone_star_ignores_everything (file_path : Path) (ignore_patterns : list (list N))
    (Hstar : lit "*" ∈ ignore_patterns) :
  should_ignore_file file_path ignore_patterns = true.
Proof.
  apply should_ignore_file_iff. exists (lit "*"). split; [done|].
  right; left. exists []. split; [done|]. by exists (name file_path); rewrite app_nil_r.
Qed.

(** X18 at a source file, with the star among other patterns. *)
Lemma lone_star_ignores_everything_witness :
  should_ignore_file (Path_of (lit "src/main.py")) [lit ".git"; lit "*"] = true.
Proof.
  apply (lone_star_ignores_everything (Path_of (lit "src/main.py")) [lit ".git"; lit "*"]).
  apply (bool_decide_eq_true_1 (lit "*" ∈ [lit ".git"; lit "*"])).
  vm_compute. reflexivity.
Defined.

(** ** Numbered lines *)

Lemma lit_String a s : lit (String a s) = N_of_ascii a :: lit s.
Proof. reflexivity. Qed.

Lemma split_app_sep sep x rest :
  sep ∉ x → split sep (x ++ sep :: rest) = x :: split sep rest.
Proof. intros Hx. by rewrite split_app, (split_without _ _ Hx). Qed.

Lemma split_join sep (l : list (list N)) :
  l ≠ [] → Forall (fun x => sep ∉ x) l → split sep (join [sep] l) = l.
Proof.
  induction l as [|x l IH]; [done|]. intros _ Hl.
  apply Forall_cons in Hl as [Hx Hl]. destruct l as [|y l].
  - simpl. by apply split_without.
  - change (join [sep] (x :: y :: l)) with (x ++ sep :: join [sep] (y :: l)).
    rewrite split_app_sep by done. by rewrite IH.
Qed.

Lemma splitlines_go_no_break s cur after_cr :
  Forall (fun c => is_linebreak c = false) cur →
  Forall (Forall (fun c => is_linebreak c = false)) (splitlines_go s cur after_cr).
Proof.
  revert cur after_cr. induction s as [|c s IH]; intros cur after_cr Hcur; simpl.
  - destruct cur; [done|]. by apply Forall_singleton.
  - destruct (after_cr && (c =? 10)%N); [by apply IH|].
    destruct (is_linebreak c) eqn:Hc.
    + apply Forall_cons. split; [done|]. by apply IH.
    + apply IH. apply Forall_app. split; [done|]. by apply Forall_singleton.
Qed.

Lemma splitlines_go_nonempty s cur after_cr :
  cur ≠ [] → splitlines_go s cur after_cr ≠ [].
Proof.
  revert cur after_cr. induction s as [|c s IH]; intros cur after_cr Hcur; simpl.
  - by destruct cur.
  - destruct (after_cr && (c =? 10)%N); [by apply IH|].
    destruct (is_linebreak c); [done|]. apply IH. by destruct cur.
Qed.

Lemma splitlines_nonempty content : content ≠ [] → splitlines content ≠ [].
Proof.
  destruct content as [|c s]; [done|]. intros _. unfold splitlines. simpl.
  destruct (is_linebreak c); [done|]. by apply splitlines_go_nonempty.
Qed.

Lemma string_of_uint_no_newline d : 10%N ∉ lit (NilEmpty.string_of_uint d).
Proof.
  induction d; simpl; rewrite ?lit_String;
    [by apply not_elem_of_nil | apply not_elem_of_cons; split; [by vm_compute|done] ..].
Qed.

Lemma str_of_nat_no_newline i : 10%N ∉ str_of_nat i.
Proof.
  unfold str_of_nat, NilZero.string_of_uint.
  destruct (Nat.to_uint i) as [|d|d|d|d|d|d|d|d|d|d];
    [apply (string_of_uint_no_newline (Decimal.D0 Decimal.Nil))
    |apply (string_of_uint_no_newline (Decimal.D0 d))
    |apply (string_of_uint_no_newline (Decimal.D1 d))
    |apply (string_of_uint_no_newline (Decimal.D2 d))
    |apply (string_of_uint_no_newline (Decimal.D3 d))
    |apply (string_of_uint_no_newline (Decimal.D4 d))
    |apply (string_of_uint_no_newline (Decimal.D5 d))
    |apply (string_of_uint_no_newline (Decimal.D6 d))
    |apply (string_of_uint_no_newline (Decimal.D7 d))
    |apply (string_of_uint_no_newline (Decimal.D8 d))
    |apply (string_of_uint_no_newline (Decimal.D9 d))].
Qed.

Lemma numbered_no_newline i line :
  is_linebreak_free line →
  10%N ∉ rjust 4 (str_of_nat (S i)) ++ [arrow] ++ line.
Proof.
  intros Hline. unfold rjust. rewrite !not_elem_of_app. repeat split.
  - intros [H _]%elem_of_replicate. by vm_compute in H.
  - apply str_of_nat_no_newline.
  - intros H%list_elem_of_singleton. by vm_compute in H.
  - intros Hin. pose proof (proj1 (Forall_forall _ _) Hline _ Hin) as H.
    by vm_compute in H.
Qed.

(** X19. Numbering keeps the lines of the content: split at the line
    feeds, the numbered rendering of a non-empty content is, line for line
    and in order, the 1-based number right-aligned in four columns, the
    arrow and the line of [splitlines], whatever line boundaries
    the content uses. *)
Theorem numbered_lines_round_trip (content : list N) (Hcontent : content ≠ []) :
  split 10%N (number_lines content)
  = imap (fun i line => rjust 4 (str_of_nat (S i)) ++ [arrow] ++ line) (splitlines content).
Proof.
  unfold number_lines. apply split_join.
  - intros Heq. apply (splitlines_nonempty content Hcontent).
    apply (f_equal length) in Heq. rewrite length_imap in Heq.
    by apply length_zero_iff_nil.
  - apply Forall_lookup. intros i x. rewrite list_lookup_imap.
    destruct (splitlines content !! i) as [line|] eqn:Hline; [|done].
    intros [= <-]. apply numbered_no_newline.
    pose proof (splitlines_go_no_break content [] false (Forall_nil_2 _)) as Hall.
    by apply (proj1 (Forall_lookup _ _) Hall i).
Qed.

(** X19 at a content of two lines. *)
Lemma numbered_lines_round_trip_witness :
  split 10%N (number_lines (lit "a" ++ [10%N] ++ lit "b"))
  = imap (fun i line => rjust 4 (str_of_nat (S i)) ++ [arrow] ++ line)
      (splitlines (lit "a" ++ [10%N] ++ lit "b")).
Proof. apply (numbered_lines_round_trip (lit "a" ++ [10%N] ++ lit "b")). by vm_compute. Defined.

(** X20. The numbered rendering is empty exactly when the content is
    empty: a content without lines is the empty string and is returned as
    it is, every other content is shown with at least one numbered line. *)
Theorem number_lines_empty_iff (content : list N) :
  number_lines content = [] ↔ content = [].
Proof.
  split; [|by intros ->].
  intros Hnum. destruct (decide (content = [])) as [|Hcontent]; [done|]. exfalso.
  apply splitlines_nonempty in Hcontent. unfold number_lines in Hnum.
  destruct (splitlines content) as [|line rest]; [done|].
  apply (f_equal length) in Hnum. unfold rjust in Hnum.
  destruct rest; cbn [imap join] in Hnum; rewrite ?length_app in Hnum;
    cbn [length] in Hnum; lia.
Qed.

(** ** Short files that are not UTF-8 *)

Lemma utf8_decode_ascii (bs : list byte) :
  Forall (fun b => (Byte.to_N b < 128)%N) bs → utf8_decode bs = Some (latin1_decode bs).
Proof.
  induction bs as [|b bs IH]; [done|]. intros [Hb Hbs]%Forall_cons.
  cbn [utf8_decode]. cbv zeta. rewrite (proj2 (N.ltb_lt _ _) Hb).
  by rewrite (IH Hbs).
Qed.

Lemma universal_newlines_go_keeps c s after_cr :
  (128 <= c)%N → c ∈ s → c ∈ universal_newlines_go s after_cr.
Proof.
  intros Hc. revert after_cr. induction s as [|d s IH]; intros after_cr Hin; [done|].
  cbn [universal_newlines_go].
  destruct (after_cr && (d =? 10)%N) eqn:Hlf.
  - apply andb_true_iff in Hlf as [_ Hd%N.eqb_eq].
    apply elem_of_cons in Hin as [->|Hin]; [lia|]. by apply IH.
  - destruct (d =? 13)%N eqn:Hcr.
    + apply N.eqb_eq in Hcr. apply elem_of_cons in Hin as [->|Hin]; [lia|].
      apply elem_of_cons. right. by apply IH.
    + apply elem_of_cons in Hin as [->|Hin]; apply elem_of_cons; [by left|].
      right. by apply IH.
Qed.

Lemma universal_newlines_go_length s after_cr :
  length (universal_newlines_go s after_cr) ≤ length s.
Proof.
  revert after_cr. induction s as [|d s IH]; intros after_cr; [done|].
  cbn [universal_newlines_go].
  destruct (after_cr && (d =? 10)%N); [specialize (IH false); simpl; lia|].
  destruct (d =? 13)%N; simpl; [specialize (IH true) | specialize (IH false)]; lia.
Qed.

Lemma short_undecodable_not_ascii (bs : list byte) :
  utf8_decode bs = None → length bs ≤ 100 →
  forallb (fun c => c <? 128)%N (take 100 (universal_newlines (latin1_decode bs))) = false.
Proof.
  intros Hutf8 Hshort. apply not_true_is_false. intros Hall.
  rewrite take_ge in Hall.
  2:{ unfold universal_newlines.
      pose proof (universal_newlines_go_length (latin1_decode bs) false) as Hlen.
      unfold latin1_decode in Hlen at 2. rewrite length_fmap in Hlen. lia. }
  rewrite utf8_decode_ascii in Hutf8; [done|].
  apply Forall_forall. intros b Hb.
  destruct (decide (Byte.to_N b < 128)%N) as [|Hbig]; [done|]. exfalso.
  assert (Byte.to_N b ∈ universal_newlines (latin1_decode bs)) as Hin.
  { apply universal_newlines_go_keeps; [lia|]. by apply list_elem_of_fmap_2. }
  rewrite forallb_forall in Hall. apply list_elem_of_In, Hall, N.ltb_lt in Hin. lia.
Qed.

(** X21. A file of at most 100 bytes that is not valid UTF-8 is always
    shown as the binary placeholder: the single-byte fallback looks at the
    first 100 characters, and a file that short has its offending byte
    among them. *)
Theorem short_undecodable_file_is_binary (env : Env) (file_path : Path)
    (include_line_numbers : bool) (w : world) (bs : list byte)
    (Hbytes : fs_read_bytes env (cwd w) file_path = inr bs)
    (Hutf8 : utf8_decode bs = None)
    (Hshort : length bs ≤ 100) :
  (read_file_content env file_path include_line_numbers w).1
  = Ok (lit "[Binary file - content not displayed]").
Proof.
  destruct (read_file_content_eq env file_path include_line_numbers w) as (w' & -> & _).
  cbn [fst]. f_equal. rewrite Hbytes. unfold decoding_policy. rewrite Hutf8. cbv zeta.
  by rewrite short_undecodable_not_ascii.
Qed.

(** X21 at the five bytes of latin.txt. *)
Lemma short_undecodable_file_is_binary_witness :
  (read_file_content Demo.env (Path_of (lit "latin.txt")) true Demo.start).1
  = Ok (lit "[Binary file - content not displayed]").
Proof.
  apply (short_undecodable_file_is_binary Demo.env (Path_of (lit "latin.txt")) true
           Demo.start [x63; x61; x66; x0a; xe9]).
  - by vm_compute.
  - by vm_compute.
  - simpl. lia.
Defined.

(** ** The document *)

(** X22. Two calls that differ only in [base_directory] behave alike, from
    the value returned down to every event, the text written included: the
    base path is computed and never read. *)
Theorem base_directory_changes_nothing (env : Env)
    (directories files : option (list (list N))) (output_file overview_text : option (list N))
    (summarize_model : option (list N)) (ignore_patterns : option (list (list N)))
    (current_working_directory : option (list N)) (include_line_numbers : bool)
    (base_directory base_directory' : option (list N)) (w : world) :
  build_context env directories files output_file overview_text summarize_model
    ignore_patterns base_directory current_working_directory include_line_numbers w
  = build_context env directories files output_file overview_text summarize_model
      ignore_patterns base_directory' current_working_directory include_line_numbers w.
Proof.
  unfold build_context, assemble.
  destruct (truthy directories) eqn:Hd; destruct (truthy files) eqn:Hf;
    destruct (truthy base_directory); destruct (truthy base_directory');
    reflexivity.
Qed.

(** X24. When [Path.cwd()] answers, the section of a file ends with its
    rendered content between two fences: for a file whose language is
    markdown the fence is exactly one backtick longer than the longest run
    of backticks in that content, and for any other language it is three
    backticks. *)
Theorem section_fence_by_language (env : Env) (summarize_model : option (list N))
    (include_line_numbers : bool) (content_lines : list (list N)) (file_path : Path)
    (w : world)
    (Hcwd : os_getcwd_error env (cwd w) = None) :
  let file_content :=
    decoding_policy (fs_read_bytes env (cwd w) file_path) include_line_numbers in
  let language := get_file_language (str_lower env) file_path in
  ∃ before fence w',
    process_file env summarize_model include_line_numbers content_lines file_path w
    = (Ok (before ++ [lit "### File Contents"; fence ++ language; file_content; fence; []]), w')
    ∧ if decide (language = lit "markdown")
      then ∃ n, longest_run n file_content ∧ fence = replicate (n + 1) backtick
      else fence = lit "```".
Proof.
  intros file_content language.
  destruct (process_file_eq env summarize_model include_line_numbers content_lines
              file_path w Hcwd) as (w2 & summary_lines & w3 & _ & _ & Hrun & _).
  fold file_content language in Hrun. rewrite Hrun. unfold code_block.
  case_decide.
  - eexists _, _, w3. split.
    + by rewrite <-(app_assoc _ [lit "### File Contents"]).
    + exists (count_max_backticks file_content).
      split; [apply count_max_backticks_longest_run | done].
  - eexists _, _, w3. split; [|done].
    by rewrite <-(app_assoc _ [lit "### File Contents"]).
Qed.

(** X24 at the markdown file of the demo that holds four backticks. *)
Lemma section_fence_by_language_witness :
  let file_content :=
    decoding_policy (fs_read_bytes Demo.env (cwd Demo.start) (Path_of (lit "notes.md")))
      false in
  let language := get_file_language (str_lower Demo.env) (Path_of (lit "notes.md")) in
  ∃ before fence w',
    process_file Demo.env None false [] (Path_of (lit "notes.md")) Demo.start
    = (Ok (before ++ [lit "### File Contents"; fence ++ language; file_content; fence; []]), w')
    ∧ if decide (language = lit "markdown")
      then ∃ n, longest_run n file_content ∧ fence = replicate (n + 1) backtick
      else fence = lit "```".
Proof.
  apply (section_fence_by_language Demo.env None false [] (Path_of (lit "notes.md"))
           Demo.start).
  vm_compute. reflexivity.
Defined.

Example markdown_fence_in_document :
  Demo.written
    (build_context Demo.env None (Some [lit "notes.md"]) (Some (lit "out.md"))
       None None None None None false Demo.start).2
  = Some (join [10%N]
            [lit "# Files"; [];
             lit "## notes.md";
             lit "### Summary"; lit "[No summary available]"; [];
             lit "### File Contents";
             lit "`````markdown"; lit "Use ```` for fences"; lit "`````"; []]).
Proof. vm_compute. done. Qed.

(** X25. When [Path.cwd()] answers, the heading of a section shows a path
    that lies below the working directory relative to it, and any other
    path as it was collected: a relative path stays relative, also when it
    leads out of the working directory. *)
Theorem section_heading_by_position (env : Env) (summarize_model : option (list N))
    (include_line_numbers : bool) (content_lines : list (list N)) (file_path : Path)
    (w : world)
    (Hcwd : os_getcwd_error env (cwd w) = None) :
  ∃ heading rest w',
    process_file env summarize_model include_line_numbers content_lines file_path w
    = (Ok (content_lines ++ heading :: rest), w')
    ∧ (∀ children, file_path = descend (Path_of (cwd w)) children →
         heading = lit "## " ++ path_str (mkPath [] children))
    ∧ (p_root file_path ≠ p_root (Path_of (cwd w))
       ∨ ¬ p_tail (Path_of (cwd w)) `prefix_of` p_tail file_path →
         heading = lit "## " ++ path_str file_path).
Proof.
  destruct (process_file_eq env summarize_model include_line_numbers content_lines
              file_path w Hcwd) as (w2 & summary_lines & w3 & _ & _ & Hrun & _).
  eexists _, _, w3. split; [|split].
  - rewrite Hrun. by repeat (rewrite <-app_assoc; simpl).
  - intros children ->. unfold relative_to, descend. simpl.
    rewrite decide_True by (split; [done | by apply prefix_app_r]).
    simpl. by rewrite drop_app_length.
  - intros Houtside. unfold relative_to.
    rewrite decide_False; [done|]. intros [Hroot Hprefix].
    by destruct Houtside.
Qed.

(** X25 at a file given by its absolute name below the working directory. *)
Lemma section_heading_by_position_witness :
  ∃ heading rest w',
    process_file Demo.env None false [] (Path_of (lit "/w/src/main.py")) Demo.start
    = (Ok ([] ++ heading :: rest), w')
    ∧ (∀ children,
         Path_of (lit "/w/src/main.py") = descend (Path_of (cwd Demo.start)) children →
         heading = lit "## " ++ path_str (mkPath [] children))
    ∧ (p_root (Path_of (lit "/w/src/main.py")) ≠ p_root (Path_of (cwd Demo.start))
       ∨ ¬ p_tail (Path_of (cwd Demo.start)) `prefix_of` p_tail (Path_of (lit "/w/src/main.py")) →
         heading = lit "## " ++ path_str (Path_of (lit "/w/src/main.py"))).
Proof.
  apply (section_heading_by_position Demo.env None false [] (Path_of (lit "/w/src/main.py"))
           Demo.start).
  vm_compute. reflexivity.
Defined.

Example headings_in_document :
  Demo.written
    (build_context Demo.env None (Some [lit "/w/src/main.py"; lit "README.md"])
       (Some (lit "out.md")) None None None None None false Demo.start).2
  = Some (join [10%N]
            [lit "# Files"; [];
             lit "## src/main.py";
             lit "### Summary"; lit "[No summary available]"; [];
             lit "### File Contents";
             lit "```python"; lit "print(1)"; lit "```"; [];
             lit "## README.md";
             lit "### Summary"; lit "[No summary available]"; [];
             lit "### File Contents";
             lit "`markdown"; lit "# Title"; lit "`"; []]).
Proof. vm_compute. done. Qed.

Lemma texts_written_none evs :
  Forall not_a_write evs →
  omap (fun e => match e with EvWrite _ text => Some text | _ => None end) evs = [].
Proof. induction 1 as [|e evs He _ IH]; [done|]. by destruct e. Qed.

(** X26. When the build returns, the one text it has written is the
    document: the overview (when there is one) and the heading of the files,
    then one section for each file the collector gathers in the directory
    the build runs in, in the collector's order, the lines joined by line
    feeds. The build runs in the alternate directory as the kernel resolved
    it, or in the directory of the call. *)
Theorem build_context_document (env : Env)
    (directories files : option (list (list N))) (output_file overview_text : option (list N))
    (summarize_model : option (list N)) (ignore_patterns : option (list (list N)))
    (base_directory current_working_directory : option (list N))
    (include_line_numbers : bool) (w : world) (output_path : list N)
    (Hreturns :
       (build_context env directories files output_file overview_text summarize_model
          ignore_patterns base_directory current_working_directory
          include_line_numbers w).1 = Ok output_path) :
  ∃ d,
    (if truthy current_working_directory
     then os_chdir_to env (cwd w) (default [] current_working_directory) = inr d
     else d = cwd w)
    ∧ texts_written
        (build_context env directories files output_file overview_text summarize_model
           ignore_patterns base_directory current_working_directory
           include_line_numbers w).2
      = texts_written w
        ++ [join [10%N]
              (heading_lines overview_text
               ++ document_sections env d directories files ignore_patterns
                    summarize_model include_line_numbers)].
Proof.
  apply build_context_returns in Hreturns
    as (destination & d & before & after & _ & _ & Hd & Htrace & Hbefore & Hafter).
  exists d. split; [done|].
  unfold texts_written. rewrite Htrace, !omap_app.
  rewrite (texts_written_none _ Hbefore). cbn [app omap list_omap].
  by rewrite (texts_written_none _ Hafter).
Qed.

(** X26 at a build of the demo directory run from [src]. *)
Lemma build_context_document_witness :
  ∃ d,
    (if truthy (Some (lit "src"))
     then os_chdir_to Demo.env (cwd Demo.start) (default [] (Some (lit "src"))) = inr d
     else d = cwd Demo.start)
    ∧ texts_written
        (build_context Demo.env (Some [lit "."]) None (Some (lit "/w/out.md"))
           (Some (lit "A demo.")) None None None (Some (lit "src")) true Demo.start).2
      = texts_written Demo.start
        ++ [join [10%N]
              (heading_lines (Some (lit "A demo."))
               ++ document_sections Demo.env d (Some [lit "."]) None None None true)].
Proof.
  apply (build_context_document Demo.env (Some [lit "."]) None (Some (lit "/w/out.md"))
           (Some (lit "A demo.")) None None None (Some (lit "src")) true Demo.start
           (lit "/w/out.md")).
  vm_compute. reflexivity.
Defined.

(** In a working directory that is gone, a file given by its absolute name
    is collected and read by no one: [Path.cwd()] raises and the section is
    the error note. *)
Example section_without_working_directory :
  let run :=
    build_context Demo.env None (Some [lit "/w/README.md"]) (Some (lit "/w/out.md")) None
      (Some (lit "gpt")) None None None true (mkWorld (lit "/gone") []) in
  run.1 = Ok (lit "/w/out.md")
  ∧ Demo.written run.2
    = Some (join [10%N]
              [lit "# Files"; [];
               lit "## /w/README.md"; [];
               lit "[Error processing file: [Errno 2] No such file or directory]"; []])
  ∧ prompts run.2 = [].
Proof. vm_compute. done. Qed.
